(** * PIPELINK SDK: the request execution pipeline, embedded in Rocq

    A shallow embedding of the TypeScript sources
    (errors/sdk-error.ts, utils/timeout.ts, utils/http.ts, config.ts,
    auth/signer.ts, auth/verify.ts, wallet/balance.ts, pipeline/create.ts)
    together with a model of the JavaScript platform facilities they call
    (strings, numbers, truthiness, [typeof], [JSON.stringify],
    [TextEncoder]/[TextDecoder], [encodeURIComponent], timers). *)

From Stdlib Require Import ZArith List String Ascii Bool Lia DecimalString.
Import ListNotations.
Open Scope Z_scope.

(** ** JavaScript strings and numbers *)

Module Js.

(** A JavaScript string is a sequence of 16-bit code units. *)
Definition JsString := list Z.

Definition is_code_unit (u : Z) : Prop := 0 <= u <= 65535.

(** Source literals are ASCII; [lit] turns one into its code units. *)
Definition lit (s : string) : JsString :=
  map (fun a => Z.of_N (N_of_ascii a)) (list_ascii_of_string s).

Fixpoint str_eqb (s t : JsString) : bool :=
  match s, t with
  | [], [] => true
  | c :: s', d :: t' => (c =? d) && str_eqb s' t'
  | _, _ => false
  end.

(** [s.startsWith(p)] *)
Fixpoint startsWith (s p : JsString) {struct p} : bool :=
  match p with
  | [] => true
  | c :: p' =>
      match s with
      | [] => false
      | d :: s' => (d =? c) && startsWith s' p'
      end
  end.

(** [s.includes(p)] *)
Fixpoint includes (s p : JsString) : bool :=
  startsWith s p ||
  match s with
  | [] => false
  | _ :: s' => includes s' p
  end.

(** [s.replace(/\/$/, "")]: the pattern matches a slash that is the last
    code unit of the input, and only the first match is replaced. *)
Fixpoint replace_trailing_slash (s : JsString) : JsString :=
  match s with
  | [] => []
  | c :: t =>
      match t with
      | [] => if c =? 47 then [] else [c]
      | _ :: _ => c :: replace_trailing_slash t
      end
  end.

(** A JavaScript number.  A finite value is written by a decimal
    [m * 10^e] (every double has one); zero is any [Dec 0 e]. *)
Inductive number : Type :=
| Dec (m e : Z)
| NaN
| Infinity
| NegInfinity.

Definition int (z : Z) : number := Dec z 0.

Definition num_is_zero (n : number) : bool :=
  match n with Dec m _ => m =? 0 | _ => false end.

(** [0 <= n] *)
Definition num_nonneg (n : number) : bool :=
  match n with
  | Dec m _ => 0 <=? m
  | Infinity => true
  | NaN | NegInfinity => false
  end.

(** [lo <= n], [n <= hi] for integer bounds. *)
Definition num_ge (n : number) (lo : Z) : bool :=
  match n with
  | Dec m e => if 0 <=? e then lo <=? m * 10 ^ e else lo * 10 ^ (- e) <=? m
  | Infinity => true
  | NaN | NegInfinity => false
  end.

Definition num_le (n : number) (hi : Z) : bool :=
  match n with
  | Dec m e => if 0 <=? e then m * 10 ^ e <=? hi else m <=? hi * 10 ^ (- e)
  | NegInfinity => true
  | NaN | Infinity => false
  end.

(** Truncation toward zero of a finite number. *)
Definition num_trunc (n : number) : Z :=
  match n with
  | Dec m e => if 0 <=? e then m * 10 ^ e else Z.quot m (10 ^ (- e))
  | _ => 0
  end.

(** *** Number::toString *)

Definition digits_of (z : Z) : list ascii :=
  list_ascii_of_string (NilZero.string_of_uint (N.to_uint (Z.to_N z))).

Fixpoint drop_zeros (l : list ascii) : list ascii * Z :=
  match l with
  | "0"%char :: t => let '(r, k) := drop_zeros t in (r, k + 1)
  | _ => (l, 0)
  end.

Definition ascii_units (l : list ascii) : JsString :=
  map (fun a => Z.of_N (N_of_ascii a)) l.

Definition zeros (n : Z) : JsString := repeat 48 (Z.to_nat n).

(** The digits of the positive value [m * 10^e], laid out as the
    ECMAScript algorithm does from [s] (the digits without trailing
    zeros), [k] (their count) and [n] (the position of the point). *)
Definition positive_toString (m e : Z) : JsString :=
  let '(rs, dropped) := drop_zeros (rev (digits_of m)) in
  let s := ascii_units (rev rs) in
  let k := Z.of_nat (List.length s) in
  let n := k + e + dropped in
  if (k <=? n) && (n <=? 21) then s ++ zeros (n - k)
  else if (0 <? n) && (n <=? 21) then
    firstn (Z.to_nat n) s ++ lit "." ++ skipn (Z.to_nat n) s
  else if (-6 <? n) && (n <=? 0) then lit "0." ++ zeros (- n) ++ s
  else
    let ex := (if 0 <=? n - 1 then lit "+" else lit "-")
                ++ ascii_units (digits_of (Z.abs (n - 1))) in
    match s with
    | [d] => [d] ++ lit "e" ++ ex
    | d :: ds => [d] ++ lit "." ++ ds ++ lit "e" ++ ex
    | [] => []
    end.

Definition Number_toString (x : number) : JsString :=
  match x with
  | NaN => lit "NaN"
  | Infinity => lit "Infinity"
  | NegInfinity => lit "-Infinity"
  | Dec m e =>
      if m =? 0 then lit "0"
      else if m <? 0 then lit "-" ++ positive_toString (- m) e
      else positive_toString m e
  end.

(** *** Unicode text: UTF-16 code units, scalar values, UTF-8 bytes *)

Definition is_high_surrogate (u : Z) : bool := (0xD800 <=? u) && (u <=? 0xDBFF).
Definition is_low_surrogate (u : Z) : bool := (0xDC00 <=? u) && (u <=? 0xDFFF).

Definition surrogate_pair (hi lo : Z) : Z :=
  0x10000 + (hi - 0xD800) * 0x400 + (lo - 0xDC00).

(** The code points of a string, read left to right; [None] stands for a
    surrogate code unit that is not part of a pair. *)
Fixpoint code_points (s : JsString) : list (option Z) :=
  match s with
  | [] => []
  | u :: t =>
      if is_high_surrogate u then
        match t with
        | l :: t' =>
            if is_low_surrogate l
            then Some (surrogate_pair u l) :: code_points t'
            else None :: code_points t
        | [] => [None]
        end
      else if is_low_surrogate u then None :: code_points t
      else Some u :: code_points t
  end.

(** [s.isWellFormed()]: no surrogate code unit stands alone. *)
Definition isWellFormed (s : JsString) : bool :=
  forallb (fun c => match c with Some _ => true | None => false end)
          (code_points s).

(** A Unicode scalar value: a code point that is not a surrogate. *)
Definition is_scalar (c : Z) : Prop :=
  0 <= c <= 0x10FFFF /\ ~ (0xD800 <= c <= 0xDFFF).

(** The UTF-16 code units of a scalar value. *)
Definition utf16_units (c : Z) : JsString :=
  if c <? 0x10000 then [c]
  else [0xD800 + (c - 0x10000) / 0x400; 0xDC00 + (c - 0x10000) mod 0x400].

(** The UTF-8 bytes of a scalar value. *)
Definition utf8_bytes (c : Z) : list Z :=
  if c <? 0x80 then [c]
  else if c <? 0x800 then [0xC0 + c / 64; 0x80 + c mod 64]
  else if c <? 0x10000 then
    [0xE0 + c / 4096; 0x80 + (c / 64) mod 64; 0x80 + c mod 64]
  else
    [0xF0 + c / 262144; 0x80 + (c / 4096) mod 64;
     0x80 + (c / 64) mod 64; 0x80 + c mod 64].

(** [new TextEncoder().encode(s)]: an unpaired surrogate is encoded as
    U+FFFD. *)
Definition TextEncoder_encode (s : JsString) : list Z :=
  flat_map (fun c => utf8_bytes (match c with Some c => c | None => 0xFFFD end))
           (code_points s).

(** The UTF-8 decoder of the Encoding standard: a state machine over the
    bytes, which answers a malformed sequence with U+FFFD and reads the
    offending byte again. *)
Record utf8_state : Type :=
  { cp : Z; seen : Z; needed : Z; lower : Z; upper : Z }.

Definition utf8_init : utf8_state :=
  {| cp := 0; seen := 0; needed := 0; lower := 0x80; upper := 0xBF |}.

(** A byte read when no continuation byte is awaited. *)
Definition utf8_lead (b : Z) : list Z * utf8_state :=
  if (0 <=? b) && (b <=? 0x7F) then ([b], utf8_init)
  else if (0xC2 <=? b) && (b <=? 0xDF) then
    ([], {| cp := b mod 32; seen := 0; needed := 1;
            lower := 0x80; upper := 0xBF |})
  else if (0xE0 <=? b) && (b <=? 0xEF) then
    ([], {| cp := b mod 16; seen := 0; needed := 2;
            lower := if b =? 0xE0 then 0xA0 else 0x80;
            upper := if b =? 0xED then 0x9F else 0xBF |})
  else if (0xF0 <=? b) && (b <=? 0xF4) then
    ([], {| cp := b mod 8; seen := 0; needed := 3;
            lower := if b =? 0xF0 then 0x90 else 0x80;
            upper := if b =? 0xF4 then 0x8F else 0xBF |})
  else ([0xFFFD], utf8_init).

Fixpoint utf8_decode (st : utf8_state) (bs : list Z) : list Z :=
  match bs with
  | [] => if needed st =? 0 then [] else [0xFFFD]
  | b :: t =>
      if needed st =? 0 then
        let '(out, st') := utf8_lead b in out ++ utf8_decode st' t
      else if (lower st <=? b) && (b <=? upper st) then
        let c := cp st * 64 + b mod 64 in
        if seen st + 1 =? needed st then c :: utf8_decode utf8_init t
        else utf8_decode {| cp := c; seen := seen st + 1; needed := needed st;
                            lower := 0x80; upper := 0xBF |} t
      else
        let '(out, st') := utf8_lead b in
        0xFFFD :: out ++ utf8_decode st' t
  end.

(** A leading byte order mark is not part of the decoded text. *)
Definition skip_bom (bs : list Z) : list Z :=
  match bs with
  | b0 :: b1 :: b2 :: t =>
      if (b0 =? 0xEF) && (b1 =? 0xBB) && (b2 =? 0xBF) then t else bs
  | _ => bs
  end.

(** [new TextDecoder().decode(bytes)]: UTF-8, not fatal, BOM not kept. *)
Definition TextDecoder_decode (bs : list Z) : JsString :=
  flat_map utf16_units (utf8_decode utf8_init (skip_bom bs)).

(** *** encodeURIComponent *)

Definition uri_unreserved (u : Z) : bool :=
  ((65 <=? u) && (u <=? 90)) || ((97 <=? u) && (u <=? 122))
  || ((48 <=? u) && (u <=? 57))
  || existsb (Z.eqb u) (lit "-_.!~*'()").

Definition hex_digit (upper_case : bool) (d : Z) : Z :=
  nth (Z.to_nat d)
      (lit (if upper_case then "0123456789ABCDEF" else "0123456789abcdef")) 48.

Definition percent_byte (b : Z) : JsString :=
  [37; hex_digit true (b / 16); hex_digit true (b mod 16)].

Fixpoint uri_encode (cs : list (option Z)) : option JsString :=
  match cs with
  | [] => Some []
  | None :: _ => None
  | Some c :: t =>
      match uri_encode t with
      | None => None
      | Some r =>
          Some ((if uri_unreserved c then [c]
                 else flat_map percent_byte (utf8_bytes c)) ++ r)
      end
  end.

(** [encodeURIComponent(s)]; [None] is the URIError thrown for a string
    with an unpaired surrogate. *)
Definition encodeURIComponent (s : JsString) : option JsString :=
  uri_encode (code_points s).

(** *** Values *)

(** The values that JSON describes (null, booleans, numbers, strings,
    arrays and objects of these), and [undefined].  A value that
    [JSON.stringify] cannot write (a BigInt, an object that contains
    itself) or leaves out (a function, a symbol) is not among them: on
    such a request body [JSON.stringify] throws before the request is
    made, or sends no body, and nothing is stated here about it. *)
#[warnings="-register-all"]
Inductive JsValue : Type :=
| JUndefined
| JNull
| JBool (b : bool)
| JNumber (n : number)
| JString (s : JsString)
| JArray (items : list JsValue)
| JObject (props : list (JsString * JsValue)).

(** ToBoolean *)
Definition truthy (v : JsValue) : bool :=
  match v with
  | JUndefined | JNull => false
  | JBool b => b
  | JNumber n => match n with NaN => false | _ => negb (num_is_zero n) end
  | JString s => match s with [] => false | _ => true end
  | JArray _ | JObject _ => true
  end.

Inductive JsType : Type :=
| T_undefined | T_object | T_boolean | T_number | T_string.

Definition typeof (v : JsValue) : JsType :=
  match v with
  | JUndefined => T_undefined
  | JNull | JArray _ | JObject _ => T_object
  | JBool _ => T_boolean
  | JNumber _ => T_number
  | JString _ => T_string
  end.

Definition type_eqb (a b : JsType) : bool :=
  match a, b with
  | T_undefined, T_undefined | T_object, T_object | T_boolean, T_boolean
  | T_number, T_number | T_string, T_string => true
  | _, _ => false
  end.

Definition Array_isArray (v : JsValue) : bool :=
  match v with JArray _ => true | _ => false end.

Fixpoint lookup (k : JsString) (props : list (JsString * JsValue)) : JsValue :=
  match props with
  | [] => JUndefined
  | (k', v) :: t => if str_eqb k' k then v else lookup k t
  end.

(** [v.k] for one of the property names the SDK reads ([name],
    [balance], [unit], [pipelineId], [status], [wallet], [message],
    [signature]); none of them is a property of an array, a string, a
    number or a boolean, and reading any property of [null] or
    [undefined] is not done by typed callers. *)
Definition prop (v : JsValue) (k : string) : JsValue :=
  match v with
  | JObject props => lookup (lit k) props
  | _ => JUndefined
  end.

(** [v === "..."] *)
Definition is_string_literal (v : JsValue) (k : string) : bool :=
  match v with JString s => str_eqb s (lit k) | _ => false end.

Fixpoint join (sep : JsString) (parts : list JsString) : JsString :=
  match parts with
  | [] => []
  | [x] => x
  | x :: t => x ++ sep ++ join sep t
  end.

(** [v.length === 0] *)
Definition length_is_0 (v : JsValue) : bool :=
  match v with
  | JString [] | JArray [] => true
  | _ => false
  end.

(** ToString, as a template literal or a built-in applies it to an
    argument. *)
Fixpoint ToString (v : JsValue) : JsString :=
  match v with
  | JUndefined => lit "undefined"
  | JNull => lit "null"
  | JBool b => lit (if b then "true" else "false")
  | JNumber n => Number_toString n
  | JString s => s
  | JArray items =>
      join (lit ",")
        (map (fun x => match x with
                       | JUndefined | JNull => []
                       | _ => ToString x
                       end) items)
  | JObject _ => lit "[object Object]"
  end.

(** *** JSON.stringify, without replacer or indentation *)

Definition unicode_escape (u : Z) : JsString :=
  lit "\u" ++ [hex_digit false (u / 4096); hex_digit false ((u / 256) mod 16);
               hex_digit false ((u / 16) mod 16); hex_digit false (u mod 16)].

Definition json_escape (u : Z) : JsString :=
  if u =? 8 then lit "\b"
  else if u =? 9 then lit "\t"
  else if u =? 10 then lit "\n"
  else if u =? 12 then lit "\f"
  else if u =? 13 then lit "\r"
  else if u =? 34 then [92; 34]
  else if u =? 92 then [92; 92]
  else if u <? 32 then unicode_escape u
  else [u].

Fixpoint quote_units (s : JsString) : JsString :=
  match s with
  | [] => []
  | u :: t =>
      if is_high_surrogate u then
        match t with
        | l :: t' =>
            if is_low_surrogate l then u :: l :: quote_units t'
            else unicode_escape u ++ quote_units t
        | [] => unicode_escape u
        end
      else if is_low_surrogate u then unicode_escape u ++ quote_units t
      else json_escape u ++ quote_units t
  end.

Definition QuoteJSONString (s : JsString) : JsString :=
  [34] ++ quote_units s ++ [34].

(** [None] is the [undefined] that JSON.stringify answers for a value
    with no JSON text.  The function never throws here, since the
    values on which JSON.stringify throws a TypeError (a BigInt, an
    object that contains itself) are not values of [JsValue]. *)
Fixpoint JSON_stringify (v : JsValue) : option JsString :=
  match v with
  | JUndefined => None
  | JNull => Some (lit "null")
  | JBool b => Some (lit (if b then "true" else "false"))
  | JNumber n =>
      Some (match n with Dec _ _ => Number_toString n | _ => lit "null" end)
  | JString s => Some (QuoteJSONString s)
  | JArray items =>
      Some (lit "[" ++
            join (lit ",")
              (map (fun x => match JSON_stringify x with
                             | Some t => t
                             | None => lit "null"
                             end) items)
            ++ lit "]")
  | JObject props =>
      Some (lit "{" ++
            join (lit ",")
              (flat_map (fun kv => match JSON_stringify (snd kv) with
                                   | Some t => [QuoteJSONString (fst kv) ++ lit ":" ++ t]
                                   | None => []
                                   end) props)
            ++ lit "}")
  end.

End Js.
Import Js.

(** ** errors/sdk-error.ts *)

Module Errors.

(** Whatever a JavaScript [throw] can raise: an instance of one of the
    SDK classes, another [Error], or a value that is not an [Error]. *)
#[warnings="-register-all"]
Inductive Exn : Type :=
| SDKError (message code : JsString) (originalError : option Exn)
| HTTPError (message : JsString) (status : number) (statusText : JsString)
            (data : JsValue)
| NetworkError (message : JsString) (originalError : option Exn)
| ValidationError (message : JsString)
| TimeoutError (message : JsString) (timeout : number)
| TypeError (message : JsString)
| OtherError (name message : JsString)
| NonError (value : JsValue).

(** The [code] field the constructors set. *)
Definition code (e : Exn) : option JsString :=
  match e with
  | SDKError _ c _ => Some c
  | HTTPError _ _ _ _ => Some (lit "HTTP_ERROR")
  | NetworkError _ _ => Some (lit "NETWORK_ERROR")
  | ValidationError _ => Some (lit "VALIDATION_ERROR")
  | TimeoutError _ _ => Some (lit "TIMEOUT_ERROR")
  | TypeError _ | OtherError _ _ | NonError _ => None
  end.

(** [e.message] when [e instanceof Error] *)
Definition message_of (e : Exn) : option JsString :=
  match e with
  | SDKError m _ _ | HTTPError m _ _ _ | NetworkError m _ | ValidationError m
  | TimeoutError m _ | TypeError m | OtherError _ m => Some m
  | NonError _ => None
  end.

Definition instanceof_HTTPError (e : Exn) : bool :=
  match e with HTTPError _ _ _ _ => true | _ => false end.
Definition instanceof_NetworkError (e : Exn) : bool :=
  match e with NetworkError _ _ => true | _ => false end.
Definition instanceof_ValidationError (e : Exn) : bool :=
  match e with ValidationError _ => true | _ => false end.
Definition instanceof_TypeError (e : Exn) : bool :=
  match e with TypeError _ => true | _ => false end.

(** The four classified kinds of the error taxonomy. *)
Inductive Kind : Type := Validation | Network | Timeout | HttpStatus.

Definition kind (e : Exn) : option Kind :=
  match e with
  | ValidationError _ => Some Validation
  | NetworkError _ _ => Some Network
  | TimeoutError _ _ => Some Timeout
  | HTTPError _ _ _ _ => Some HttpStatus
  | SDKError _ _ _ | TypeError _ | OtherError _ _ | NonError _ => None
  end.

End Errors.
Import Errors.

(** ** Promises, timers and the transport contract *)

Module Platform.

(** The state an awaited promise ends in; [Pending] is a promise that is
    never settled. *)
Inductive Promise (A : Type) : Type :=
| Resolved (a : A)
| Rejected (e : Exn)
| Pending.
Arguments Resolved {A} a.
Arguments Rejected {A} e.
Arguments Pending {A}.

(** [await p] followed by the rest of an async function. *)
Definition await {A B : Type} (p : Promise A) (k : A -> Promise B) : Promise B :=
  match p with
  | Resolved a => k a
  | Rejected e => Rejected e
  | Pending => Pending
  end.

(** [try { p } catch (error) { h error }] *)
Definition try_catch {A : Type} (p : Promise A) (h : Exn -> Promise A) : Promise A :=
  match p with
  | Rejected e => h e
  | _ => p
  end.

(** A promise seen from outside: the state it ends in and the
    milliseconds it takes to get there. *)
Record Eventually (A : Type) : Type :=
  { after_ms : Z; outcome : Promise A }.
Arguments after_ms {A} _.
Arguments outcome {A} _.

(** [Promise.race([p, q])]: the one settled first decides, the first
    listed if both settle in the same turn. *)
Definition Promise_race {A : Type} (p q : Eventually A) : Promise A :=
  match outcome p, outcome q with
  | Pending, _ => outcome q
  | _, Pending => outcome p
  | _, _ => if after_ms p <=? after_ms q then outcome p else outcome q
  end.

(** The delay [setTimeout] runs with: whole milliseconds, and 1 when the
    argument is not a number between 1 and 2^31-1. *)
Definition timer_delay (timeout : number) : Z :=
  if num_ge timeout 1 && num_le timeout 2147483647 then num_trunc timeout
  else 1.

Module Response.
Record t : Type :=
  { ok : bool;
    status : number;
    statusText : JsString;
    (** [headers.get("content-type")], [None] for [null] *)
    content_type : option JsString;
    json : Promise JsValue;
    text : Promise JsString }.
End Response.

Module RequestInit.
Record t : Type :=
  { method : JsString;
    headers : list (JsString * JsString);
    body : option JsString }.
End RequestInit.

(** The transport function: what it answers to a request, and when.  A
    synchronous throw is a rejection after 0 ms. *)
Definition FetchFn : Type := JsString -> RequestInit.t -> Eventually Response.t.

(** One invocation of the transport function. *)
Definition FetchCall : Type := (JsString * RequestInit.t)%type.

(** An async computation that may invoke the transport: the invocations
    it made, in order, and the state of its promise. *)
Definition Async (A : Type) : Type := (list FetchCall * Promise A)%type.

Definition ret {A : Type} (a : A) : Async A := ([], Resolved a).
Definition throw {A : Type} (e : Exn) : Async A := ([], Rejected e).
Definition lift {A : Type} (p : Promise A) : Async A := ([], p).

Definition bind {A B : Type} (m : Async A) (k : A -> Async B) : Async B :=
  match snd m with
  | Resolved a => (fst m ++ fst (k a), snd (k a))
  | Rejected e => (fst m, Rejected e)
  | Pending => (fst m, Pending)
  end.

Definition catch {A : Type} (m : Async A) (h : Exn -> Async A) : Async A :=
  match snd m with
  | Rejected e => (fst m ++ fst (h e), snd (h e))
  | _ => m
  end.

Definition calls {A : Type} (m : Async A) : list FetchCall := fst m.
Definition result {A : Type} (m : Async A) : Promise A := snd m.

End Platform.
Import Platform.

Notation "x <- m ;; k" := (bind m (fun x => k))
  (at level 61, m at next level, right associativity).

(** Object spread [{...a, ...b}] on records of strings. *)
Fixpoint assign (a : list (JsString * JsString)) (k v : JsString)
  : list (JsString * JsString) :=
  match a with
  | [] => [(k, v)]
  | (k', v') :: t => if str_eqb k' k then (k', v) :: t else (k', v') :: assign t k v
  end.

Definition spread (a b : list (JsString * JsString)) : list (JsString * JsString) :=
  fold_left (fun acc kv => assign acc (fst kv) (snd kv)) b a.

(** ** utils/timeout.ts *)

Module Timeout.

Definition createTimeoutPromise {T : Type} (timeout : number) : Eventually T :=
  {| after_ms := timer_delay timeout;
     outcome := Rejected (TimeoutError
                   (lit "Request timeout after " ++ Number_toString timeout ++ lit "ms")
                   timeout) |}.

Definition withTimeout {T : Type} (promise : Eventually T) (timeout : number)
  : Promise T :=
  Promise_race promise (createTimeoutPromise timeout).

End Timeout.
Import Timeout.

(** ** types/index.ts *)

Module PipelinkConfig.
(** [Partial<PipelinkConfig>]; [None] is an absent field. *)
Record t : Type :=
  { baseUrl : option JsString;
    network : option JsString;
    timeout : option number;
    fetch : option FetchFn }.
End PipelinkConfig.

Module HttpRequestOptions.
(** [HttpRequestOptions & { fetch?; timeout }]; an absent [body] is
    [JUndefined]. *)
Record t : Type :=
  { method : option JsString;
    headers : option (list (JsString * JsString));
    body : JsValue;
    timeout : number;
    fetch : option FetchFn }.
End HttpRequestOptions.

Module WalletAdapter.
Record PublicKey : Type :=
  { (** what calling [toBase58()] does *)
    toBase58 : Exn + JsString }.
(** A field that is [None] is missing.  [signMessage], given the bytes,
    answers a promise of a signature ([None] when it resolves with
    [null] or [undefined]); a synchronous throw is a rejection. *)
Record t : Type :=
  { signMessage : option (list Z -> Promise (option (list Z)));
    publicKey : option PublicKey }.
End WalletAdapter.

Module SignResult.
Record t : Type :=
  { address : JsString;
    message : JsString;
    signature : list Z }.
End SignResult.

(** [string | Uint8Array] *)
Inductive Message : Type :=
| Text (s : JsString)
| Bytes (b : list Z).

(** [a || b] on an optional number *)
Definition number_or (a : option number) (b : number) : number :=
  match a with
  | Some n => if truthy (JNumber n) then n else b
  | None => b
  end.

(** ** config.ts *)

Module Config.

Definition DEFAULT_TIMEOUT : number := int 30000.
Definition DEFAULT_NETWORK : JsString := lit "mainnet-beta".

(** [inl] is the [Error] thrown. *)
Definition normalizeConfig (config : PipelinkConfig.t) : Exn + PipelinkConfig.t :=
  match PipelinkConfig.baseUrl config with
  | None | Some [] => inl (OtherError (lit "Error") (lit "baseUrl is required"))
  | Some baseUrl =>
      if negb (startsWith baseUrl (lit "http://"))
         && negb (startsWith baseUrl (lit "https://"))
      then inl (OtherError (lit "Error")
                  (lit "baseUrl must start with http:// or https://"))
      else
        inr {| PipelinkConfig.baseUrl := Some (replace_trailing_slash baseUrl);
               PipelinkConfig.network :=
                 Some (match PipelinkConfig.network config with
                       | Some (c :: n) => c :: n
                       | Some [] | None => DEFAULT_NETWORK
                       end);
               PipelinkConfig.timeout :=
                 Some (number_or (PipelinkConfig.timeout config) DEFAULT_TIMEOUT);
               PipelinkConfig.fetch := PipelinkConfig.fetch config |}
  end.

End Config.
Import Config.

(** ** auth/signer.ts *)

Module Signer.

(** [typeof message === "string" ? new TextEncoder().encode(message) : message] *)
Definition messageBytes (message : Message) : list Z :=
  match message with
  | Text s => TextEncoder_encode s
  | Bytes b => b
  end.

Definition signMessage (walletAdapter : option WalletAdapter.t) (message : Message)
  : Promise SignResult.t :=
  match walletAdapter with
  | None => Rejected (ValidationError (lit "Wallet adapter is required"))
  | Some adapter =>
  match WalletAdapter.signMessage adapter with
  | None => Rejected (ValidationError (lit "Wallet adapter must support signMessage"))
  | Some sign =>
  match WalletAdapter.publicKey adapter with
  | None => Rejected (ValidationError (lit "Wallet adapter must have a publicKey"))
  | Some publicKey =>
      if Z.of_nat (List.length (messageBytes message)) =? 0
      then Rejected (ValidationError (lit "Message cannot be empty"))
      else
        try_catch
          (await (sign (messageBytes message)) (fun signature =>
             match signature with
             | None | Some [] =>
                 Rejected (ValidationError (lit "Wallet returned invalid signature"))
             | Some sig =>
                 match WalletAdapter.toBase58 publicKey with
                 | inl thrown => Rejected thrown
                 | inr address =>
                     Resolved
                       {| SignResult.address := address;
                          SignResult.message :=
                            match message with
                            | Text s => s
                            | Bytes b => TextDecoder_decode b
                            end;
                          SignResult.signature := sig |}
                 end
             end))
          (fun error =>
             if instanceof_ValidationError error then Rejected error
             else
               Rejected (ValidationError
                 (lit "Failed to sign message: " ++
                  match message_of error with
                  | Some m => m
                  | None => lit "Unknown error"
                  end)))
  end end end.

End Signer.
Import Signer.

(** ** utils/http.ts and the operations that call it *)

Section Network.

(** [globalThis.fetch]; [None] on a platform without one. *)
Variable globalThis_fetch : option FetchFn.

(** [await withTimeout(fetchFn(url, requestInit), timeout)]; calling
    what is not a function throws a TypeError. *)
Definition call_fetch (fetchFn : option FetchFn) (url : JsString)
    (requestInit : RequestInit.t) (timeout : number) : Async Response.t :=
  match fetchFn with
  | Some f => ([(url, requestInit)], withTimeout (f url requestInit) timeout)
  | None => throw (TypeError (lit "fetchFn is not a function"))
  end.

Definition httpRequest (url : JsString) (options : HttpRequestOptions.t)
  : Async JsValue :=
  let method := match HttpRequestOptions.method options with
                | Some m => m
                | None => lit "GET"
                end in
  let headers := match HttpRequestOptions.headers options with
                 | Some h => h
                 | None => []
                 end in
  let body := HttpRequestOptions.body options in
  let timeout := HttpRequestOptions.timeout options in
  let customFetch := HttpRequestOptions.fetch options in
  let fetchFn := match customFetch with
                 | Some f => Some f
                 | None => globalThis_fetch
                 end in
  let requestInit :=
    {| RequestInit.method := method;
       RequestInit.headers :=
         spread [(lit "Content-Type", lit "application/json")] headers;
       RequestInit.body := if truthy body then JSON_stringify body else None |} in
  catch
    (response <- call_fetch fetchFn url requestInit timeout ;;
     let contentType := Response.content_type response in
     data <- (if match contentType with
                 | Some ct => truthy (JString ct) && includes ct (lit "application/json")
                 | None => false
                 end
              then lift (Response.json response)
              else if Response.ok response
              then (t <- lift (Response.text response) ;; ret (JString t))
              else ret JUndefined) ;;
     if negb (Response.ok response)
     then throw (HTTPError
                   (lit "HTTP " ++ Number_toString (Response.status response)
                    ++ lit ": " ++ Response.statusText response)
                   (Response.status response)
                   (Response.statusText response)
                   data)
     else ret data)
    (fun error =>
       if instanceof_HTTPError error || instanceof_NetworkError error
       then throw error
       else if instanceof_TypeError error
       then throw (NetworkError
                     (lit "Network request failed: " ++
                      match message_of error with Some m => m | None => [] end)
                     (Some error))
       else throw error).

Definition get (url : JsString) (options : HttpRequestOptions.t) : Async JsValue :=
  httpRequest url
    {| HttpRequestOptions.method := Some (lit "GET");
       HttpRequestOptions.headers := HttpRequestOptions.headers options;
       HttpRequestOptions.body := HttpRequestOptions.body options;
       HttpRequestOptions.timeout := HttpRequestOptions.timeout options;
       HttpRequestOptions.fetch := HttpRequestOptions.fetch options |}.

Definition post (url : JsString) (body : JsValue) (options : HttpRequestOptions.t)
  : Async JsValue :=
  httpRequest url
    {| HttpRequestOptions.method := Some (lit "POST");
       HttpRequestOptions.headers := HttpRequestOptions.headers options;
       HttpRequestOptions.body := body;
       HttpRequestOptions.timeout := HttpRequestOptions.timeout options;
       HttpRequestOptions.fetch := HttpRequestOptions.fetch options |}.

(** The options object [{ fetch: config.fetch, timeout }] *)
Definition fetch_timeout (config : PipelinkConfig.t) (timeout : number)
  : HttpRequestOptions.t :=
  {| HttpRequestOptions.method := None;
     HttpRequestOptions.headers := None;
     HttpRequestOptions.body := JUndefined;
     HttpRequestOptions.timeout := timeout;
     HttpRequestOptions.fetch := PipelinkConfig.fetch config |}.

(** [!x || typeof x !== "..."] *)
Definition not_a (ty : JsType) (x : JsValue) : bool :=
  negb (truthy x) || negb (type_eqb (typeof x) ty).

(** *** auth/verify.ts *)

Definition verifySignature (payload : list (JsString * JsValue))
    (config : PipelinkConfig.t) : Async JsValue :=
  if negb (truthy (lookup (lit "wallet") payload))
  then throw (ValidationError (lit "Wallet address is required"))
  else if negb (truthy (lookup (lit "message") payload))
  then throw (ValidationError (lit "Message is required"))
  else if negb (Array_isArray (lookup (lit "signature") payload))
          || length_is_0 (lookup (lit "signature") payload)
  then throw (ValidationError (lit "Valid signature array is required"))
  else
    match PipelinkConfig.baseUrl config with
    | None | Some [] => throw (ValidationError (lit "SDK config is invalid"))
    | Some baseUrl =>
        let url := baseUrl ++ lit "/api/auth/verify" in
        let timeout := number_or (PipelinkConfig.timeout config) (int 30000) in
        catch
          (response <- post url (JObject payload) (fetch_timeout config timeout) ;;
           if not_a T_object response
           then throw (ValidationError
                         (lit "Invalid response from auth verify endpoint"))
           else ret response)
          (fun error =>
             if instanceof_ValidationError error then throw error
             else throw error)
    end.

(** *** wallet/balance.ts *)

Definition getWalletBalance (address : JsValue) (config : PipelinkConfig.t)
  : Async JsValue :=
  if not_a T_string address
  then throw (ValidationError (lit "Valid wallet address is required"))
  else if length_is_0 address
  then throw (ValidationError (lit "Wallet address cannot be empty"))
  else
    match PipelinkConfig.baseUrl config with
    | None | Some [] => throw (ValidationError (lit "SDK config is invalid"))
    | Some baseUrl =>
        match encodeURIComponent (ToString address) with
        | None => throw (OtherError (lit "URIError") (lit "URI malformed"))
        | Some encoded =>
            let url := baseUrl ++ lit "/api/wallet/balance?address=" ++ encoded in
            let timeout := number_or (PipelinkConfig.timeout config) (int 30000) in
            catch
              (response <- get url (fetch_timeout config timeout) ;;
               if not_a T_object response
               then throw (ValidationError
                             (lit "Invalid response from wallet balance endpoint"))
               else if negb (type_eqb (typeof (prop response "balance")) T_number)
               then throw (ValidationError (lit "Balance must be a number"))
               else if negb (is_string_literal (prop response "unit") "SOL")
               then throw (ValidationError (lit "Unit must be SOL"))
               else ret response)
              (fun error =>
                 if instanceof_ValidationError error then throw error
                 else throw error)
        end
    end.

(** *** pipeline/create.ts *)

Definition createPipeline (pipelineConfig : JsValue) (config : PipelinkConfig.t)
  : Async JsValue :=
  if not_a T_object pipelineConfig
  then throw (ValidationError (lit "Pipeline configuration is required"))
  else if not_a T_string (prop pipelineConfig "name")
  then throw (ValidationError (lit "Pipeline name is required"))
  else if length_is_0 (prop pipelineConfig "name")
  then throw (ValidationError (lit "Pipeline name cannot be empty"))
  else
    match PipelinkConfig.baseUrl config with
    | None | Some [] => throw (ValidationError (lit "SDK config is invalid"))
    | Some baseUrl =>
        let url := baseUrl ++ lit "/api/pipeline/create" in
        let timeout := number_or (PipelinkConfig.timeout config) (int 30000) in
        catch
          (response <- post url pipelineConfig (fetch_timeout config timeout) ;;
           if not_a T_object response
           then throw (ValidationError
                         (lit "Invalid response from pipeline create endpoint"))
           else if not_a T_string (prop response "pipelineId")
           then throw (ValidationError (lit "Pipeline ID is required in response"))
           else if not_a T_string (prop response "status")
           then throw (ValidationError
                         (lit "Pipeline status is required in response"))
           else ret response)
          (fun error =>
             if instanceof_ValidationError error then throw error
             else throw error)
    end.

End Network.

(** The request descriptor [httpRequest] builds from its options. *)
Definition requestInit_of (options : HttpRequestOptions.t) : RequestInit.t :=
  {| RequestInit.method :=
       match HttpRequestOptions.method options with
       | Some m => m
       | None => lit "GET"
       end;
     RequestInit.headers :=
       spread [(lit "Content-Type", lit "application/json")]
              match HttpRequestOptions.headers options with
              | Some h => h
              | None => []
              end;
     RequestInit.body :=
       if truthy (HttpRequestOptions.body options)
       then JSON_stringify (HttpRequestOptions.body options)
       else None |}.

(** The checks [getWalletBalance] applies to what [get] resolved with. *)
Definition balance_checks (response : JsValue) : Async JsValue :=
  if not_a T_object response
  then throw (ValidationError (lit "Invalid response from wallet balance endpoint"))
  else if negb (type_eqb (typeof (prop response "balance")) T_number)
  then throw (ValidationError (lit "Balance must be a number"))
  else if negb (is_string_literal (prop response "unit") "SOL")
  then throw (ValidationError (lit "Unit must be SOL"))
  else ret response.

(** ** How an operation can end *)

(** The transport function the operations of [config] use. *)
Definition transport_of (globalThis_fetch : option FetchFn)
    (config : PipelinkConfig.t) : option FetchFn :=
  match PipelinkConfig.fetch config with
  | Some f => Some f
  | None => globalThis_fetch
  end.





(** ** Stubs and sample data, as the test suite sets them up *)

Module Fixtures.

(** [new Response(JSON.stringify(v), { status, statusText, headers:
    { "content-type": "application/json" } })] *)
Definition Response_json (status : Z) (statusText : JsString) (v : JsValue)
  : Response.t :=
  {| Response.ok := (200 <=? status) && (status <=? 299);
     Response.status := int status;
     Response.statusText := statusText;
     Response.content_type := Some (lit "application/json");
     Response.json := Resolved v;
     Response.text := Resolved (match JSON_stringify v with
                                | Some t => t
                                | None => []
                                end) |}.

(** [vi.fn().mockResolvedValue(r)] and [vi.fn().mockRejectedValue(e)] *)
Definition mockResolvedValue (r : Response.t) : FetchFn :=
  fun _ _ => {| after_ms := 0; outcome := Resolved r |}.
Definition mockRejectedValue (e : Exn) : FetchFn :=
  fun _ _ => {| after_ms := 0; outcome := Rejected e |}.

(** A transport whose promise is never settled. *)
Definition mockNeverSettles : FetchFn :=
  fun _ _ => {| after_ms := 0; outcome := Pending |}.

(** A wallet adapter whose [signMessage] answers [signed] to any bytes. *)
Definition mockAdapter (signed : Promise (option (list Z))) (address : string)
  : WalletAdapter.t :=
  {| WalletAdapter.signMessage := Some (fun _ => signed);
     WalletAdapter.publicKey :=
       Some {| WalletAdapter.toBase58 := inr (lit address) |} |}.

Definition partial (baseUrl : string) (timeout : option number)
    (fetch : option FetchFn) : PipelinkConfig.t :=
  {| PipelinkConfig.baseUrl := Some (lit baseUrl);
     PipelinkConfig.network := Some (lit "mainnet-beta");
     PipelinkConfig.timeout := timeout;
     PipelinkConfig.fetch := fetch |}.

(** The configuration of the test suite. *)
Definition config (fetch : option FetchFn) : PipelinkConfig.t :=
  partial "https://api.example.com" (Some (int 5000)) fetch.

(** A configuration without endpoint. *)
Definition config_without_baseUrl (fetch : option FetchFn) : PipelinkConfig.t :=
  {| PipelinkConfig.baseUrl := None;
     PipelinkConfig.network := Some (lit "mainnet-beta");
     PipelinkConfig.timeout := Some (int 5000);
     PipelinkConfig.fetch := fetch |}.

(** A transport that resolves after [ms] milliseconds. *)
Definition mockResolvesAfter (ms : Z) (r : Response.t) : FetchFn :=
  fun _ _ => {| after_ms := ms; outcome := Resolved r |}.

(** The payload of the verification tests. *)
Definition payload : list (JsString * JsValue) :=
  [(lit "wallet", JString (lit "11111111111111111111111111111111"));
   (lit "message", JString (lit "Hello, Solana!"));
   (lit "signature", JArray [JNumber (int 1); JNumber (int 2); JNumber (int 3)])].

Definition json_headers : list (JsString * JsString) :=
  [(lit "Content-Type", lit "application/json")].

Definition balance_body (balance : JsValue) (unit : string) : JsValue :=
  JObject [(lit "balance", balance); (lit "unit", JString (lit unit))].

Definition wallet_address : JsValue :=
  JString (lit "So1111111111111111111111111111111111111112").

End Fixtures.

(** ** client.ts *)

Module AuthService.
Record t : Type :=
  { signMessage : option WalletAdapter.t -> Message -> Promise SignResult.t;
    verifySignature : list (JsString * JsValue) -> Async JsValue }.
End AuthService.

Module WalletService.
Record t : Type :=
  { getBalance : JsValue -> Async JsValue }.
End WalletService.

Module PipelineService.
Record t : Type :=
  { create : JsValue -> Async JsValue }.
End PipelineService.

Module PipelinkClient.
Record t : Type :=
  { config : PipelinkConfig.t;
    auth : AuthService.t;
    wallet : WalletService.t;
    pipeline : PipelineService.t }.
End PipelinkClient.

Section Client.

Variable globalThis_fetch : option FetchFn.

(** [new PipelinkClient(config)]; [inl] is what the constructor throws. *)
Definition new_PipelinkClient (config : PipelinkConfig.t)
  : Exn + PipelinkClient.t :=
  match normalizeConfig config with
  | inl thrown => inl thrown
  | inr this_config =>
      inr {| PipelinkClient.config := this_config;
             PipelinkClient.auth :=
               {| AuthService.signMessage := signMessage;
                  AuthService.verifySignature :=
                    fun payload =>
                      verifySignature globalThis_fetch payload this_config |};
             PipelinkClient.wallet :=
               {| WalletService.getBalance :=
                    fun address =>
                      getWalletBalance globalThis_fetch address this_config |};
             PipelinkClient.pipeline :=
               {| PipelineService.create :=
                    fun pipelineConfig =>
                      createPipeline globalThis_fetch pipelineConfig this_config |} |}
  end.

End Client.

(** [getConfig()]: a copy of the configuration. *)
Definition getConfig (this : PipelinkClient.t) : PipelinkConfig.t :=
  {| PipelinkConfig.baseUrl := PipelinkConfig.baseUrl (PipelinkClient.config this);
     PipelinkConfig.network := PipelinkConfig.network (PipelinkClient.config this);
     PipelinkConfig.timeout := PipelinkConfig.timeout (PipelinkClient.config this);
     PipelinkConfig.fetch := PipelinkConfig.fetch (PipelinkClient.config this) |}.

(** ** Notions used to state how a request goes *)

(** The transport function [httpRequest] uses for [options]. *)
Definition fetchFn_of (globalThis_fetch : option FetchFn)
    (options : HttpRequestOptions.t) : option FetchFn :=
  match HttpRequestOptions.fetch options with
  | Some f => Some f
  | None => globalThis_fetch
  end.

(** The promise settles, and not after the timer of [timeout] fires. *)
Definition settles_in_time {A : Type} (p : Eventually A) (timeout : number)
  : Prop :=
  outcome p <> Pending /\ after_ms p <= timer_delay timeout.

(** The promise is never settled, or only after the timer has fired. *)
Definition too_late {A : Type} (p : Eventually A) (timeout : number) : Prop :=
  outcome p = Pending \/ timer_delay timeout < after_ms p.

(** The declared content type of the response contains
    ["application/json"]. *)
Definition declares_json (r : Response.t) : bool :=
  match Response.content_type r with
  | Some ct => includes ct (lit "application/json")
  | None => false
  end.

(** The message of the HTTPError thrown for a response. *)
Definition HTTPError_message (r : Response.t) : JsString :=
  lit "HTTP " ++ Number_toString (Response.status r) ++ lit ": "
  ++ Response.statusText r.

(** The first value bound to a header name. *)
Fixpoint header (k : JsString) (hs : list (JsString * JsString))
  : option JsString :=
  match hs with
  | [] => None
  | (k', v) :: t => if str_eqb k' k then Some v else header k t
  end.

(** The payload passes the checks of [verifySignature]. *)
Definition valid_payload (payload : list (JsString * JsValue)) : Prop :=
  truthy (lookup (lit "wallet") payload) = true /\
  truthy (lookup (lit "message") payload) = true /\
  exists x items, lookup (lit "signature") payload = JArray (x :: items).

(** The pipeline configuration passes the checks of [createPipeline]. *)
Definition valid_pipelineConfig (pipelineConfig : JsValue) : Prop :=
  exists props c s,
    pipelineConfig = JObject props /\ lookup (lit "name") props = JString (c :: s).

(** The characters [encodeURIComponent] can answer: letters, digits,
    the marks it leaves alone, and [%]. *)
Definition uri_safe (u : Z) : bool := uri_unreserved u || (u =? 37).

(** ** The request each operation issues *)

(** [config.timeout || 30000] *)
Definition deadline_of (config : PipelinkConfig.t) : number :=
  number_or (PipelinkConfig.timeout config) (int 30000).

Definition verify_request (globalThis_fetch : option FetchFn)
    (payload : list (JsString * JsValue)) (config : PipelinkConfig.t)
    (baseUrl : JsString) : Async JsValue :=
  post globalThis_fetch (baseUrl ++ lit "/api/auth/verify") (JObject payload)
    (fetch_timeout config (deadline_of config)).

Definition balance_request (globalThis_fetch : option FetchFn)
    (config : PipelinkConfig.t) (baseUrl encoded : JsString) : Async JsValue :=
  get globalThis_fetch (baseUrl ++ lit "/api/wallet/balance?address=" ++ encoded)
    (fetch_timeout config (deadline_of config)).

Definition create_request (globalThis_fetch : option FetchFn)
    (pipelineConfig : JsValue) (config : PipelinkConfig.t)
    (baseUrl : JsString) : Async JsValue :=
  post globalThis_fetch (baseUrl ++ lit "/api/pipeline/create") pipelineConfig
    (fetch_timeout config (deadline_of config)).

(** The request descriptor of a GET and of a POST without caller
    headers. *)
Definition GET_init : RequestInit.t :=
  {| RequestInit.method := lit "GET";
     RequestInit.headers := [(lit "Content-Type", lit "application/json")];
     RequestInit.body := None |}.

Definition POST_init (body : JsValue) : RequestInit.t :=
  {| RequestInit.method := lit "POST";
     RequestInit.headers := [(lit "Content-Type", lit "application/json")];
     RequestInit.body := JSON_stringify body |}.

(** More stubs and sample data. *)
Module Samples.

Definition ok_json (v : JsValue) : FetchFn :=
  Fixtures.mockResolvedValue (Fixtures.Response_json 200 (lit "OK") v).

(** A response that is not JSON. *)
Definition Response_text (status : Z) (statusText : JsString)
    (content_type : option JsString) (json : Promise JsValue)
    (text : Promise JsString) : Response.t :=
  {| Response.ok := (200 <=? status) && (status <=? 299);
     Response.status := int status;
     Response.statusText := statusText;
     Response.content_type := content_type;
     Response.json := json;
     Response.text := text |}.

Definition options (headers : option (list (JsString * JsString)))
    (timeout : Z) (fetch : option FetchFn) : HttpRequestOptions.t :=
  {| HttpRequestOptions.method := None;
     HttpRequestOptions.headers := headers;
     HttpRequestOptions.body := JUndefined;
     HttpRequestOptions.timeout := int timeout;
     HttpRequestOptions.fetch := fetch |}.

Definition url : JsString := lit "https://api.example.com/test".

Definition base : JsString := lit "https://api.example.com".

(** The configuration of the test suite with a transport that answers
    the JSON value [v] at status 200. *)
Definition config_ok (v : JsValue) : PipelinkConfig.t :=
  Fixtures.config (Some (ok_json v)).

Definition verified : JsValue := JObject [(lit "verified", JBool true)].

Definition pipelineConfig : JsValue :=
  JObject [(lit "name", JString (lit "Advanced Pipeline"));
           (lit "description", JString (lit "With extra fields"));
           (lit "customField", JString (lit "customValue"));
           (lit "anotherField", JNumber (int 123))].

Definition pipeline_response : JsValue :=
  JObject [(lit "pipelineId", JString (lit "pipe_456"));
           (lit "status", JString (lit "pending"))].

End Samples.

(** * Properties *)

(** ** Strings *)

Lemma str_eqb_eq (s t : JsString) : str_eqb s t = true <-> s = t.
Proof.
  revert t; induction s as [|c s IH]; intros [|d t]; simpl; split;
    try congruence; try reflexivity.
  - intros H. apply andb_true_iff in H as [Hc Hs].
    apply Z.eqb_eq in Hc. apply IH in Hs. congruence.
  - intros H. injection H as -> ->. rewrite Z.eqb_refl. simpl. now apply IH.
Qed.

Lemma startsWith_app (s p : JsString) :
  startsWith s p = true <-> exists r, s = p ++ r.
Proof.
  revert s; induction p as [|c p IH]; intros s; simpl.
  - split; [intros _; now exists s | reflexivity].
  - destruct s as [|d s].
    + split; [discriminate | intros [r Hr]; discriminate].
    + rewrite andb_true_iff, Z.eqb_eq, IH. split.
      * intros [-> [r ->]]. now exists r.
      * intros [r Hr]. injection Hr as -> ->. split; [reflexivity | now exists r].
Qed.

(** A trailing slash is removed, and only that one. *)
Lemma replace_trailing_slash_slash (s : JsString) :
  replace_trailing_slash (s ++ [47]) = s.
Proof.
  induction s as [|c s IH]; simpl; [reflexivity|].
  destruct (s ++ [47]) eqn:E.
  - now destruct s.
  - now rewrite IH.
Qed.

(** Without a trailing slash the string is kept as it is. *)
Lemma replace_trailing_slash_other (s : JsString) (c : Z) :
  c <> 47 -> replace_trailing_slash (s ++ [c]) = s ++ [c].
Proof.
  intros Hc. induction s as [|d s IH]; simpl.
  - apply Z.eqb_neq in Hc. now rewrite Hc.
  - destruct (s ++ [c]) eqn:E.
    + now destruct s.
    + now rewrite IH.
Qed.

Lemma replace_trailing_slash_two_slashes (s : JsString) :
  replace_trailing_slash (s ++ [47; 47]) = s ++ [47].
Proof.
  change (s ++ [47; 47]) with (s ++ [47] ++ [47]).
  rewrite app_assoc. apply replace_trailing_slash_slash.
Qed.

(** ** config.ts: the normalized endpoint *)

(** What [normalizeConfig] accepts, and what it answers then. *)
Lemma normalizeConfig_accepts (config normalized : PipelinkConfig.t) :
  normalizeConfig config = inr normalized <->
  exists baseUrl,
    PipelinkConfig.baseUrl config = Some baseUrl /\
    (startsWith baseUrl (lit "http://") = true \/
     startsWith baseUrl (lit "https://") = true) /\
    normalized =
      {| PipelinkConfig.baseUrl := Some (replace_trailing_slash baseUrl);
         PipelinkConfig.network :=
           Some (match PipelinkConfig.network config with
                 | Some (c :: n) => c :: n
                 | _ => DEFAULT_NETWORK
                 end);
         PipelinkConfig.timeout :=
           Some (number_or (PipelinkConfig.timeout config) DEFAULT_TIMEOUT);
         PipelinkConfig.fetch := PipelinkConfig.fetch config |}.
Proof.
  unfold normalizeConfig.
  destruct (PipelinkConfig.baseUrl config) as [[|c b]|] eqn:E.
  - split; [discriminate | intros (b & Hb & [H | H] & _)].
    + injection Hb as <-. discriminate.
    + injection Hb as <-. discriminate.
  - destruct (startsWith (c :: b) (lit "http://")) eqn:E1;
      destruct (startsWith (c :: b) (lit "https://")) eqn:E2; cbn [negb andb].
    1-3: split;
         [ intros H; injection H as <-; exists (c :: b);
           repeat split; auto;
           destruct (PipelinkConfig.network config) as [[|? ?]|]; reflexivity
         | intros (b' & Hb & _ & ->); injection Hb as <-;
           destruct (PipelinkConfig.network config) as [[|? ?]|]; reflexivity ].
    split; [discriminate | intros (b' & Hb & [H | H] & _)];
      injection Hb as <-; congruence.
  - split; [discriminate | intros (b & Hb & _)]. discriminate.
Qed.

(** The normalized endpoint is never empty. *)
Lemma normalizeConfig_baseUrl_nonempty (config normalized : PipelinkConfig.t) :
  normalizeConfig config = inr normalized ->
  exists c b, PipelinkConfig.baseUrl normalized = Some (c :: b).
Proof.
  intros H. apply normalizeConfig_accepts in H as (b & _ & Hs & ->). simpl.
  assert (exists r, b = lit "http:/" ++ [47] ++ r \/ b = lit "https:/" ++ [47] ++ r)
    as [r Hr].
  { destruct Hs as [Hs | Hs]; apply startsWith_app in Hs as [r ->];
      exists r; [left | right]; reflexivity. }
  destruct Hr as [-> | ->]; cbn -[replace_trailing_slash];
    unfold replace_trailing_slash; eauto.
Qed.

(** An endpoint that goes on after the scheme keeps the scheme. *)
Lemma replace_trailing_slash_keeps_prefix (p r : JsString) :
  r <> [] -> startsWith (replace_trailing_slash (p ++ r)) p = true.
Proof.
  intros Hr. destruct (@exists_last _ r Hr) as (r' & c & ->).
  rewrite app_assoc. apply startsWith_app.
  destruct (Z.eq_dec c 47) as [-> | Hc].
  - rewrite replace_trailing_slash_slash. now exists r'.
  - rewrite replace_trailing_slash_other by assumption.
    exists (r' ++ [c]). now rewrite app_assoc.
Qed.

Lemma normalizeConfig_keeps_scheme (config normalized : PipelinkConfig.t)
    (baseUrl : JsString) :
  normalizeConfig config = inr normalized ->
  PipelinkConfig.baseUrl config = Some baseUrl ->
  baseUrl <> lit "http://" -> baseUrl <> lit "https://" ->
  exists b, PipelinkConfig.baseUrl normalized = Some b /\
            (startsWith b (lit "http://") = true \/
             startsWith b (lit "https://") = true).
Proof.
  intros H Hb N1 N2. apply normalizeConfig_accepts in H as (b & Hb' & Hs & ->).
  rewrite Hb in Hb'. injection Hb' as <-. cbn [PipelinkConfig.baseUrl].
  eexists; split; [reflexivity|].
  destruct Hs as [Hs | Hs]; apply startsWith_app in Hs as [r ->]; [left | right];
    apply replace_trailing_slash_keeps_prefix; intros ->;
    rewrite app_nil_r in *; congruence.
Qed.

(** C2 (at the input that breaks it): the endpoint ["http://"] passes the
    check of the scheme, and the slash that is removed is the scheme's
    own, so that the normalized endpoint ["http:/"] begins with neither
    ["http://"] nor ["https://"]. *)
Theorem normalizeConfig_bare_scheme :
  exists normalized,
    normalizeConfig (Fixtures.partial "http://" None None) = inr normalized /\
    PipelinkConfig.baseUrl normalized = Some (lit "http:/") /\
    startsWith (lit "http:/") (lit "http://") = false /\
    startsWith (lit "http:/") (lit "https://") = false.
Proof. eexists. repeat split. Qed.

(** ** config.ts: the timeout *)

(** C3 (counterexample): with a valid endpoint, a timeout of 0 and a
    timeout of -5 are both accepted; the first is replaced by the
    default, the second is kept, and it is the deadline of the race
    against the timer when an operation runs with the normalized
    configuration. *)
Lemma nonpositive_timeout_is_accepted :
  normalizeConfig (Fixtures.partial "https://api.example.com" (Some (int 0)) None)
    = inr (Fixtures.partial "https://api.example.com" (Some (int 30000)) None)
  /\
  normalizeConfig (Fixtures.partial "https://api.example.com" (Some (int (-5)))
                     (Some Fixtures.mockNeverSettles))
    = inr (Fixtures.partial "https://api.example.com" (Some (int (-5)))
             (Some Fixtures.mockNeverSettles))
  /\
  result (getWalletBalance None Fixtures.wallet_address
            (Fixtures.partial "https://api.example.com" (Some (int (-5)))
               (Some Fixtures.mockNeverSettles)))
    = Rejected (TimeoutError (lit "Request timeout after -5ms") (int (-5))).
Proof. repeat split; vm_compute; reflexivity. Qed.

(** C3 (amended): a timeout that is zero or negative never makes the
    Configuration Normalizer reject: on a valid endpoint the
    configuration is accepted, a zero timeout is replaced by the default
    of 30000 and a negative one is kept as it is. *)
Theorem normalizeConfig_nonpositive_timeout
    (config : PipelinkConfig.t) (baseUrl : JsString) (t : number) :
  PipelinkConfig.baseUrl config = Some baseUrl ->
  startsWith baseUrl (lit "http://") = true \/
    startsWith baseUrl (lit "https://") = true ->
  PipelinkConfig.timeout config = Some t ->
  num_le t 0 = true ->
  exists normalized,
    normalizeConfig config = inr normalized /\
    PipelinkConfig.timeout normalized
      = Some (if num_is_zero t then int 30000 else t).
Proof.
  intros Hb Hs Ht Hle. eexists. split.
  - apply normalizeConfig_accepts. exists baseUrl. repeat split; assumption.
  - simpl. rewrite Ht. unfold number_or, DEFAULT_TIMEOUT.
    destruct t; simpl in *; try discriminate; try reflexivity.
    now destruct (m =? 0).
Qed.

Lemma normalizeConfig_nonpositive_timeout_witness :
  exists normalized,
    normalizeConfig (Fixtures.partial "https://api.example.com" (Some (int (-5))) None)
      = inr normalized /\
    PipelinkConfig.timeout normalized = Some (int (-5)).
Proof.
  apply (normalizeConfig_nonpositive_timeout
           (Fixtures.partial "https://api.example.com" (Some (int (-5))) None)
           (lit "https://api.example.com") (int (-5))).
  - reflexivity.
  - right. reflexivity.
  - reflexivity.
  - reflexivity.
Defined.

(** ** Async computations *)

Section AsyncLaws.
Context {A B : Type}.

Lemma calls_bind (m : Async A) (k : A -> Async B) :
  calls (bind m k) =
  calls m ++ match result m with Resolved a => calls (k a) | _ => [] end.
Proof.
  unfold calls, result, bind. destruct (snd m); simpl; now rewrite ?app_nil_r.
Qed.

Lemma result_bind (m : Async A) (k : A -> Async B) :
  result (bind m k) =
  match result m with
  | Resolved a => result (k a)
  | Rejected e => Rejected e
  | Pending => Pending
  end.
Proof. unfold result, bind. now destruct (snd m). Qed.

Lemma calls_catch (m : Async A) (h : Exn -> Async A) :
  calls (catch m h) =
  calls m ++ match result m with Rejected e => calls (h e) | _ => [] end.
Proof.
  unfold calls, result, catch.
  destruct m as [l [a | e | ]]; simpl; now rewrite ?app_nil_r.
Qed.

Lemma result_catch (m : Async A) (h : Exn -> Async A) :
  result (catch m h) =
  match result m with
  | Rejected e => result (h e)
  | r => r
  end.
Proof. unfold result, catch. now destruct m as [l [a | e | ]]. Qed.

(** A handler that throws what it caught again changes nothing. *)
Lemma catch_rethrow (m : Async A) (h : Exn -> Async A) :
  (forall e, h e = throw e) -> catch m h = m.
Proof.
  intros H. unfold catch. destruct m as [l [a | e | ]]; simpl; try reflexivity.
  rewrite H. simpl. now rewrite app_nil_r.
Qed.

End AsyncLaws.

Lemma calls_throw {A : Type} (e : Exn) : calls (@throw A e) = [].
Proof. reflexivity. Qed.
Lemma calls_ret {A : Type} (a : A) : calls (ret a) = [].
Proof. reflexivity. Qed.
Lemma calls_lift {A : Type} (p : Promise A) : calls (lift p) = [].
Proof. reflexivity. Qed.

(** Proves that a computation built from [lift], [ret], [throw], [bind],
    [catch] and conditionals invokes no transport. *)
Ltac silent :=
  repeat first
    [ reflexivity
    | rewrite calls_bind | rewrite calls_catch
    | rewrite calls_throw | rewrite calls_ret | rewrite calls_lift
    | match goal with
      | |- context [match result ?m with _ => _ end] => destruct (result m)
      | |- context [if ?c then _ else _] => destruct c
      end
    | progress cbn [app] ].

(** ** utils/http.ts: the request that is sent *)

(** [httpRequest] invokes the transport function once, with the
    descriptor built from the options, or not at all when there is no
    transport function. *)
Lemma httpRequest_calls (gf : option FetchFn) (url : JsString)
    (options : HttpRequestOptions.t) :
  calls (httpRequest gf url options) =
  match match HttpRequestOptions.fetch options with
        | Some f => Some f
        | None => gf
        end with
  | Some _ => [(url, requestInit_of options)]
  | None => []
  end.
Proof.
  unfold httpRequest, call_fetch.
  fold (requestInit_of options).
  destruct (match HttpRequestOptions.fetch options with
            | Some f => Some f
            | None => gf
            end) as [f|].
  - rewrite calls_catch, calls_bind.
    change (calls (?l, ?p)) with l.
    match goal with
    | |- (?l ++ ?x) ++ ?y = _ =>
        assert (x = []) as ->
    end.
    { destruct (result _); [silent | reflexivity ..]. }
    destruct (result _); [reflexivity | silent | reflexivity].
  - silent.
Qed.

(** A value that is sent has a JSON text. *)
Lemma truthy_has_json (v : JsValue) :
  truthy v = true -> JSON_stringify v <> None.
Proof. destruct v; simpl; congruence. Qed.

(** C8 (counterexample): a POST whose body is the number 0 reaches the
    transport function without body, although the body was supplied and
    has the JSON text ["0"]. *)
Lemma post_zero_body_not_sent :
  JSON_stringify (JNumber (int 0)) = Some (lit "0") /\
  map (fun c => RequestInit.body (snd c))
      (calls (post None (lit "https://api.example.com/count") (JNumber (int 0))
                (fetch_timeout
                   (Fixtures.config
                      (Some (Fixtures.mockResolvedValue
                               (Fixtures.Response_json 200 (lit "OK") JNull))))
                   (int 5000))))
  = [None].
Proof. split; reflexivity. Qed.

(** C8 (amended): the request descriptor handed to the transport
    function has a body if and only if the body value of the caller is
    truthy (so not for an absent body, nor for [null], [false], [0],
    [NaN] or the empty string), and that body is the JSON text of the
    value. *)
Theorem httpRequest_body (gf : option FetchFn) (url : JsString)
    (options : HttpRequestOptions.t) (f : FetchFn) :
  match HttpRequestOptions.fetch options with
  | Some f => Some f
  | None => gf
  end = Some f ->
  exists requestInit,
    calls (httpRequest gf url options) = [(url, requestInit)] /\
    (RequestInit.body requestInit <> None <->
     truthy (HttpRequestOptions.body options) = true) /\
    (truthy (HttpRequestOptions.body options) = true ->
     RequestInit.body requestInit
       = JSON_stringify (HttpRequestOptions.body options)).
Proof.
  intros Hf. exists (requestInit_of options). rewrite httpRequest_calls, Hf.
  split; [reflexivity|]. unfold requestInit_of; cbn [RequestInit.body].
  destruct (truthy (HttpRequestOptions.body options)) eqn:E.
  - split; [split; [reflexivity | intros _; now apply truthy_has_json] | reflexivity].
  - split; [split; [congruence | discriminate] | discriminate].
Qed.

Lemma httpRequest_body_witness :
  exists requestInit,
    calls (httpRequest None (lit "https://api.example.com/auth")
             {| HttpRequestOptions.method := Some (lit "POST");
                HttpRequestOptions.headers := None;
                HttpRequestOptions.body :=
                  JObject [(lit "wallet", JString (lit "ABC123"));
                           (lit "message", JString (lit "Hello"))];
                HttpRequestOptions.timeout := int 5000;
                HttpRequestOptions.fetch :=
                  Some (Fixtures.mockResolvedValue
                          (Fixtures.Response_json 200 (lit "OK")
                             (JObject [(lit "success", JBool true)]))) |})
      = [(lit "https://api.example.com/auth", requestInit)] /\
    RequestInit.body requestInit
      = JSON_stringify (JObject [(lit "wallet", JString (lit "ABC123"));
                                 (lit "message", JString (lit "Hello"))]).
Proof.
  destruct (httpRequest_body None (lit "https://api.example.com/auth")
              {| HttpRequestOptions.method := Some (lit "POST");
                 HttpRequestOptions.headers := None;
                 HttpRequestOptions.body :=
                   JObject [(lit "wallet", JString (lit "ABC123"));
                            (lit "message", JString (lit "Hello"))];
                 HttpRequestOptions.timeout := int 5000;
                 HttpRequestOptions.fetch :=
                   Some (Fixtures.mockResolvedValue
                           (Fixtures.Response_json 200 (lit "OK")
                              (JObject [(lit "success", JBool true)]))) |}
              _ eq_refl) as (requestInit & Hcalls & _ & Hbody).
  exists requestInit. split; [exact Hcalls | exact (Hbody eq_refl)].
Defined.

(** ** Validation of the input comes before the transport *)

(** C9: a pipeline configuration whose [name] is not a non-empty string
    (the empty string, another value, no [name] at all, or no
    configuration object) is rejected with a ValidationError, and the
    transport function has not been invoked. *)
Theorem createPipeline_invalid_name (gf : option FetchFn)
    (pipelineConfig : JsValue) (config : PipelinkConfig.t) :
  (forall s, prop pipelineConfig "name" = JString s -> s = []) ->
  exists msg,
    result (createPipeline gf pipelineConfig config)
      = Rejected (ValidationError msg) /\
    calls (createPipeline gf pipelineConfig config) = [].
Proof.
  intros Hname. unfold createPipeline.
  destruct (not_a T_object pipelineConfig); [eexists; split; reflexivity|].
  destruct (prop pipelineConfig "name") as [ | | b | n | [|c s] | l | l ] eqn:E;
    try (eexists; split; reflexivity).
  - unfold not_a; cbn [typeof type_eqb negb]. rewrite orb_true_r.
    eexists; split; reflexivity.
  - unfold not_a; cbn [typeof type_eqb negb]. rewrite orb_true_r.
    eexists; split; reflexivity.
  - specialize (Hname _ eq_refl). discriminate.
Qed.

Lemma createPipeline_invalid_name_witness :
  exists msg,
    result (createPipeline None (JObject [(lit "name", JString [])])
              (Fixtures.config (Some Fixtures.mockNeverSettles)))
      = Rejected (ValidationError msg) /\
    calls (createPipeline None (JObject [(lit "name", JString [])])
             (Fixtures.config (Some Fixtures.mockNeverSettles))) = [].
Proof.
  apply (createPipeline_invalid_name None (JObject [(lit "name", JString [])])).
  intros s H. vm_compute in H. now injection H as <-.
Defined.

(** C10: called with a configuration whose [baseUrl] is absent or empty,
    each network operation is rejected with a ValidationError, whatever
    its other argument is, and the transport function has not been
    invoked. *)
Theorem operations_require_baseUrl (gf : option FetchFn)
    (config : PipelinkConfig.t) (payload : list (JsString * JsValue))
    (address pipelineConfig : JsValue) :
  PipelinkConfig.baseUrl config = None \/ PipelinkConfig.baseUrl config = Some [] ->
  (exists msg, verifySignature gf payload config
               = ([], Rejected (ValidationError msg))) /\
  (exists msg, getWalletBalance gf address config
               = ([], Rejected (ValidationError msg))) /\
  (exists msg, createPipeline gf pipelineConfig config
               = ([], Rejected (ValidationError msg))).
Proof.
  intros Hb. unfold verifySignature, getWalletBalance, createPipeline.
  repeat split.
  all: repeat match goal with
         | |- context [if ?c then _ else _] =>
             destruct c; [eexists; reflexivity|]
         end.
  all: destruct Hb as [-> | ->]; eexists; reflexivity.
Qed.

Lemma operations_require_baseUrl_witness :
  (exists msg,
     verifySignature None
       [(lit "wallet", JString (lit "wallet123"));
        (lit "message", JString (lit "Hello"));
        (lit "signature", JArray [JNumber (int 1); JNumber (int 2)])]
       (Fixtures.config_without_baseUrl (Some Fixtures.mockNeverSettles))
     = ([], Rejected (ValidationError msg))) /\
  (exists msg,
     getWalletBalance None Fixtures.wallet_address
       (Fixtures.config_without_baseUrl (Some Fixtures.mockNeverSettles))
     = ([], Rejected (ValidationError msg))) /\
  (exists msg,
     createPipeline None (JObject [(lit "name", JString (lit "Test"))])
       (Fixtures.config_without_baseUrl (Some Fixtures.mockNeverSettles))
     = ([], Rejected (ValidationError msg))).
Proof.
  apply operations_require_baseUrl. left. reflexivity.
Defined.

(** ** wallet/balance.ts: the shape of the response *)

Lemma is_string_literal_eq (v : JsValue) (k : string) :
  is_string_literal v k = true <-> v = JString (lit k).
Proof.
  destruct v; simpl; try (split; congruence).
  rewrite str_eqb_eq. split; congruence.
Qed.

Lemma typeof_number (v : JsValue) :
  type_eqb (typeof v) T_number = true <-> exists n, v = JNumber n.
Proof.
  destruct v; simpl; split; try congruence; try (intros [n Hn]; congruence).
  eauto.
Qed.

(** Past the validation of its input, [getWalletBalance] is one GET
    followed by the checks of the response. *)
Lemma getWalletBalance_valid_input (gf : option FetchFn) (address : JsString)
    (config : PipelinkConfig.t) (baseUrl encoded : JsString) :
  address <> [] ->
  PipelinkConfig.baseUrl config = Some baseUrl -> baseUrl <> [] ->
  encodeURIComponent address = Some encoded ->
  getWalletBalance gf (JString address) config =
  (response <- get gf (baseUrl ++ lit "/api/wallet/balance?address=" ++ encoded)
                 (fetch_timeout config
                    (number_or (PipelinkConfig.timeout config) (int 30000))) ;;
   balance_checks response).
Proof.
  intros Ha Hb Hne He. unfold getWalletBalance.
  destruct address as [|a0 address]; [congruence|].
  destruct baseUrl as [|b0 baseUrl]; [congruence|].
  cbn [not_a truthy typeof type_eqb negb orb length_is_0 ToString].
  rewrite Hb, He. apply catch_rethrow.
  intros e. now destruct (instanceof_ValidationError e).
Qed.

Lemma balance_checks_result (response : JsValue) :
  (exists n, prop response "balance" = JNumber n) /\
    prop response "unit" = JString (lit "SOL") /\
    balance_checks response = ret response
  \/
  ((forall n, prop response "balance" <> JNumber n) \/
    prop response "unit" <> JString (lit "SOL")) /\
    exists msg, balance_checks response = throw (ValidationError msg).
Proof.
  unfold balance_checks.
  destruct (not_a T_object response) eqn:Eo.
  { right. split; [|eexists; reflexivity]. left. intros n Hn.
    destruct response; discriminate. }
  destruct (type_eqb (typeof (prop response "balance")) T_number) eqn:En;
    cbn [negb].
  2:{ right. split; [|eexists; reflexivity]. left. intros n Hn.
      rewrite Hn in En. discriminate. }
  destruct (is_string_literal (prop response "unit") "SOL") eqn:Eu; cbn [negb].
  2:{ right. split; [|eexists; reflexivity]. right. intros Hu.
      apply is_string_literal_eq in Hu. congruence. }
  left. apply typeof_number in En. apply is_string_literal_eq in Eu. auto.
Qed.

(** What [getWalletBalance] resolves with has passed the checks. *)
Lemma resolved_balance_passed_checks (gf : option FetchFn) (address : JsValue)
    (config : PipelinkConfig.t) (response : JsValue) :
  result (getWalletBalance gf address config) = Resolved response ->
  balance_checks response = ret response.
Proof.
  unfold getWalletBalance.
  repeat match goal with
         | |- context [if ?c then throw _ else _] => destruct c; [discriminate|]
         end.
  destruct (PipelinkConfig.baseUrl config) as [[|b0 baseUrl]|]; try discriminate.
  destruct (encodeURIComponent (ToString address)); [|discriminate].
  rewrite catch_rethrow by (intros e; now destruct (instanceof_ValidationError e)).
  match goal with
  | |- context [bind ?m _] => change (bind m _) with (bind m balance_checks)
  end.
  rewrite result_bind. destruct (result (get _ _ _)) as [r | e | ]; try discriminate.
  destruct (balance_checks_result r) as [(_ & _ & H) | (_ & msg & H)]; rewrite H.
  - intros [= ->]. exact H.
  - discriminate.
Qed.

(** C4 (counterexample): a response with balance -1 and unit ["SOL"] is
    accepted, and [getWalletBalance] resolves with the negative balance. *)
Lemma getWalletBalance_negative_balance :
  result (getWalletBalance None Fixtures.wallet_address
            (Fixtures.config
               (Some (Fixtures.mockResolvedValue
                        (Fixtures.Response_json 200 (lit "OK")
                           (Fixtures.balance_body (JNumber (int (-1))) "SOL"))))))
    = Resolved (Fixtures.balance_body (JNumber (int (-1))) "SOL") /\
  prop (Fixtures.balance_body (JNumber (int (-1))) "SOL") "balance"
    = JNumber (int (-1)) /\
  num_nonneg (int (-1)) = false.
Proof. repeat split; vm_compute; reflexivity. Qed.

(** C4 (amended): whatever [getWalletBalance] resolves with is an
    object whose [balance] is of type number, of either sign, and whose
    [unit] is the string ["SOL"]. *)
Theorem getWalletBalance_resolved (gf : option FetchFn) (address : JsValue)
    (config : PipelinkConfig.t) (response : JsValue) :
  result (getWalletBalance gf address config) = Resolved response ->
  typeof response = T_object /\
  typeof (prop response "balance") = T_number /\
  prop response "unit" = JString (lit "SOL").
Proof.
  intros H. apply resolved_balance_passed_checks in H.
  destruct (balance_checks_result response) as [([n Hn] & Hu & _) | (_ & msg & H')].
  - repeat split; [|now rewrite Hn | exact Hu].
    destruct response; try discriminate; reflexivity.
  - rewrite H in H'. discriminate.
Qed.

Lemma getWalletBalance_resolved_witness :
  typeof (Fixtures.balance_body (JNumber (Dec 105 (-1))) "SOL") = T_object /\
  typeof (prop (Fixtures.balance_body (JNumber (Dec 105 (-1))) "SOL") "balance")
    = T_number /\
  prop (Fixtures.balance_body (JNumber (Dec 105 (-1))) "SOL") "unit"
    = JString (lit "SOL").
Proof.
  apply (getWalletBalance_resolved None Fixtures.wallet_address
           (Fixtures.config
              (Some (Fixtures.mockResolvedValue
                       (Fixtures.Response_json 200 (lit "OK")
                          (Fixtures.balance_body (JNumber (Dec 105 (-1))) "SOL")))))).
  vm_compute. reflexivity.
Defined.

(** C5: when the GET of [getWalletBalance] resolves with a parsed
    response, the operation resolves with that very response if it is an
    object with a [balance] of type number and the [unit] ["SOL"], and is
    rejected with a ValidationError if [balance] is not a number or
    [unit] is anything else. *)
Theorem getWalletBalance_validates_response (gf : option FetchFn)
    (address : JsString) (config : PipelinkConfig.t)
    (baseUrl encoded : JsString) (response : JsValue) :
  address <> [] ->
  PipelinkConfig.baseUrl config = Some baseUrl -> baseUrl <> [] ->
  encodeURIComponent address = Some encoded ->
  result (get gf (baseUrl ++ lit "/api/wallet/balance?address=" ++ encoded)
            (fetch_timeout config
               (number_or (PipelinkConfig.timeout config) (int 30000))))
    = Resolved response ->
  ((exists n, prop response "balance" = JNumber n) ->
   prop response "unit" = JString (lit "SOL") ->
   result (getWalletBalance gf (JString address) config) = Resolved response)
  /\
  ((forall n, prop response "balance" <> JNumber n) \/
   prop response "unit" <> JString (lit "SOL") ->
   exists msg,
     result (getWalletBalance gf (JString address) config)
       = Rejected (ValidationError msg)).
Proof.
  intros Ha Hb Hne He Hget.
  rewrite (getWalletBalance_valid_input gf address config baseUrl encoded)
    by assumption.
  rewrite result_bind, Hget.
  destruct (balance_checks_result response)
    as [([n Hn] & Hu & H) | ([Hn | Hu] & msg & H)]; rewrite H; split.
  - reflexivity.
  - intros [Hn' | Hu']; [now destruct (Hn' n) | contradiction].
  - intros [n Hn']. now destruct (Hn n).
  - intros _. now exists msg.
  - intros _ Hu'. contradiction.
  - intros _. now exists msg.
Qed.

Lemma getWalletBalance_validates_response_witness :
  result (getWalletBalance None Fixtures.wallet_address
            (Fixtures.config
               (Some (Fixtures.mockResolvedValue
                        (Fixtures.Response_json 200 (lit "OK")
                           (Fixtures.balance_body (JNumber (Dec 105 (-1))) "SOL"))))))
    = Resolved (Fixtures.balance_body (JNumber (Dec 105 (-1))) "SOL")
  /\
  exists msg,
    result (getWalletBalance None Fixtures.wallet_address
              (Fixtures.config
                 (Some (Fixtures.mockResolvedValue
                          (Fixtures.Response_json 200 (lit "OK")
                             (Fixtures.balance_body (JString (lit "x")) "SOL"))))))
      = Rejected (ValidationError msg).
Proof.
  split.
  - refine (proj1 (getWalletBalance_validates_response None
                     (lit "So1111111111111111111111111111111111111112")
                     _ (lit "https://api.example.com")
                     (lit "So1111111111111111111111111111111111111112")
                     (Fixtures.balance_body (JNumber (Dec 105 (-1))) "SOL")
                     _ _ _ _ _) _ _).
    + discriminate.
    + reflexivity.
    + discriminate.
    + vm_compute. reflexivity.
    + vm_compute. reflexivity.
    + eexists. vm_compute. reflexivity.
    + vm_compute. reflexivity.
  - refine (proj2 (getWalletBalance_validates_response None
                     (lit "So1111111111111111111111111111111111111112")
                     _ (lit "https://api.example.com")
                     (lit "So1111111111111111111111111111111111111112")
                     (Fixtures.balance_body (JString (lit "x")) "SOL")
                     _ _ _ _ _) _).
    + discriminate.
    + reflexivity.
    + discriminate.
    + vm_compute. reflexivity.
    + vm_compute. reflexivity.
    + left. intros n Hn. vm_compute in Hn. discriminate.
Defined.

(** ** auth/signer.ts: failures of signing *)

(** C7: whatever [signMessage] is rejected with is a ValidationError,
    never an error of the kinds Network, Timeout or HttpStatus.  When the
    signer capability fails with a cause that is not a ValidationError,
    the rejection is the ValidationError ["Failed to sign message: "]
    followed by the message of the cause; when it answers an empty
    signature, the rejection is a ValidationError too. *)
Theorem signMessage_fails_with_validation
    (walletAdapter : option WalletAdapter.t) (message : Message) :
  (forall e, signMessage walletAdapter message = Rejected e ->
             kind e = Some Validation) /\
  (forall adapter sign publicKey,
      walletAdapter = Some adapter ->
      WalletAdapter.signMessage adapter = Some sign ->
      WalletAdapter.publicKey adapter = Some publicKey ->
      messageBytes message <> [] ->
      (forall cause,
          sign (messageBytes message) = Rejected cause ->
          instanceof_ValidationError cause = false ->
          signMessage walletAdapter message =
          Rejected (ValidationError
                      (lit "Failed to sign message: " ++
                       match message_of cause with
                       | Some m => m
                       | None => lit "Unknown error"
                       end))) /\
      (sign (messageBytes message) = Resolved (Some []) ->
       signMessage walletAdapter message =
       Rejected (ValidationError (lit "Wallet returned invalid signature")))).
Proof.
  split.
  - intros e. unfold signMessage.
    destruct walletAdapter as [adapter|]; [|now intros [= <-]].
    destruct (WalletAdapter.signMessage adapter) as [sign|]; [|now intros [= <-]].
    destruct (WalletAdapter.publicKey adapter) as [publicKey|]; [|now intros [= <-]].
    destruct (_ =? 0); [now intros [= <-]|].
    destruct (sign (messageBytes message)) as [[[|b sig]|] | cause | ];
      cbn [await try_catch].
    + now intros [= <-].
    + destruct (WalletAdapter.toBase58 publicKey) as [thrown|address];
        cbn [try_catch]; [|discriminate].
      destruct thrown; cbn [instanceof_ValidationError]; now intros [= <-].
    + now intros [= <-].
    + destruct cause; cbn [instanceof_ValidationError]; now intros [= <-].
    + discriminate.
  - intros adapter sign publicKey -> Hs Hp Hne. unfold signMessage.
    rewrite Hs, Hp.
    destruct (messageBytes message) as [|b0 bytes] eqn:Eb; [congruence|].
    cbn [List.length]. rewrite Nat2Z.inj_succ.
    destruct (Z.succ _ =? 0) eqn:E0; [apply Z.eqb_eq in E0; lia|].
    split.
    + intros cause -> Hv. cbn [await try_catch]. now rewrite Hv.
    + intros ->. reflexivity.
Qed.

Lemma signMessage_fails_with_validation_witness :
  signMessage
    (Some (Fixtures.mockAdapter
             (Rejected (NetworkError (lit "wallet offline") None)) "wallet"))
    (Text (lit "message"))
  = Rejected (ValidationError (lit "Failed to sign message: wallet offline"))
  /\
  signMessage (Some (Fixtures.mockAdapter (Resolved (Some [])) "wallet"))
    (Text (lit "message"))
  = Rejected (ValidationError (lit "Wallet returned invalid signature")).
Proof.
  split.
  - refine (proj1 (proj2 (signMessage_fails_with_validation
                            (Some (Fixtures.mockAdapter
                                     (Rejected (NetworkError (lit "wallet offline") None))
                                     "wallet"))
                            (Text (lit "message")))
                     (Fixtures.mockAdapter
                        (Rejected (NetworkError (lit "wallet offline") None)) "wallet")
                     (fun _ => Rejected (NetworkError (lit "wallet offline") None))
                     {| WalletAdapter.toBase58 := inr (lit "wallet") |}
                     eq_refl eq_refl eq_refl _)
              (NetworkError (lit "wallet offline") None) eq_refl eq_refl).
    vm_compute. discriminate.
  - refine (proj2 (proj2 (signMessage_fails_with_validation
                            (Some (Fixtures.mockAdapter (Resolved (Some [])) "wallet"))
                            (Text (lit "message")))
                     (Fixtures.mockAdapter (Resolved (Some [])) "wallet")
                     (fun _ => Resolved (Some []))
                     {| WalletAdapter.toBase58 := inr (lit "wallet") |}
                     eq_refl eq_refl eq_refl _) eq_refl).
    vm_compute. discriminate.
Defined.

(** ** Text encoding: UTF-16 to UTF-8 and back *)

Ltac zdm := Z.div_mod_to_equations; lia.

(** *** The steps of the UTF-8 decoder *)

Lemma utf8_lead_1 (b : Z) :
  0 <= b <= 0x7F -> utf8_lead b = ([b], utf8_init).
Proof.
  intros H. unfold utf8_lead.
  replace (0 <=? b) with true by (symmetry; apply Z.leb_le; lia).
  replace (b <=? 0x7F) with true by (symmetry; apply Z.leb_le; lia).
  reflexivity.
Qed.

Lemma utf8_lead_2 (b : Z) :
  0xC2 <= b <= 0xDF ->
  utf8_lead b = ([], {| cp := b mod 32; seen := 0; needed := 1;
                        lower := 0x80; upper := 0xBF |}).
Proof.
  intros H. unfold utf8_lead.
  replace (b <=? 0x7F) with false by (symmetry; apply Z.leb_gt; lia).
  replace (0xC2 <=? b) with true by (symmetry; apply Z.leb_le; lia).
  replace (b <=? 0xDF) with true by (symmetry; apply Z.leb_le; lia).
  now rewrite andb_false_r.
Qed.

Lemma utf8_lead_3 (b : Z) :
  0xE0 <= b <= 0xEF ->
  utf8_lead b = ([], {| cp := b mod 16; seen := 0; needed := 2;
                        lower := if b =? 0xE0 then 0xA0 else 0x80;
                        upper := if b =? 0xED then 0x9F else 0xBF |}).
Proof.
  intros H. unfold utf8_lead.
  replace (b <=? 0x7F) with false by (symmetry; apply Z.leb_gt; lia).
  replace (b <=? 0xDF) with false by (symmetry; apply Z.leb_gt; lia).
  replace (0xE0 <=? b) with true by (symmetry; apply Z.leb_le; lia).
  replace (b <=? 0xEF) with true by (symmetry; apply Z.leb_le; lia).
  now rewrite !andb_false_r.
Qed.

Lemma utf8_lead_4 (b : Z) :
  0xF0 <= b <= 0xF4 ->
  utf8_lead b = ([], {| cp := b mod 8; seen := 0; needed := 3;
                        lower := if b =? 0xF0 then 0x90 else 0x80;
                        upper := if b =? 0xF4 then 0x8F else 0xBF |}).
Proof.
  intros H. unfold utf8_lead.
  replace (b <=? 0x7F) with false by (symmetry; apply Z.leb_gt; lia).
  replace (b <=? 0xDF) with false by (symmetry; apply Z.leb_gt; lia).
  replace (b <=? 0xEF) with false by (symmetry; apply Z.leb_gt; lia).
  replace (0xF0 <=? b) with true by (symmetry; apply Z.leb_le; lia).
  replace (b <=? 0xF4) with true by (symmetry; apply Z.leb_le; lia).
  now rewrite !andb_false_r.
Qed.

(** A byte read in the initial state. *)
Lemma utf8_decode_lead (b : Z) (t : list Z) :
  utf8_decode utf8_init (b :: t) =
  fst (utf8_lead b) ++ utf8_decode (snd (utf8_lead b)) t.
Proof. cbn [utf8_decode utf8_init needed Z.eqb]. now destruct (utf8_lead b). Qed.

(** A continuation byte that is not the last one of its sequence. *)
Lemma utf8_decode_continue (st : utf8_state) (b : Z) (t : list Z) :
  needed st <> 0 -> lower st <= b <= upper st -> seen st + 1 <> needed st ->
  utf8_decode st (b :: t) =
  utf8_decode {| cp := cp st * 64 + b mod 64; seen := seen st + 1;
                 needed := needed st; lower := 0x80; upper := 0xBF |} t.
Proof.
  intros Hn Hb Hs. cbn [utf8_decode].
  replace (needed st =? 0) with false by (symmetry; now apply Z.eqb_neq).
  replace (lower st <=? b) with true by (symmetry; apply Z.leb_le; lia).
  replace (b <=? upper st) with true by (symmetry; apply Z.leb_le; lia).
  replace (seen st + 1 =? needed st) with false by (symmetry; now apply Z.eqb_neq).
  reflexivity.
Qed.

(** The last continuation byte of a sequence. *)
Lemma utf8_decode_complete (st : utf8_state) (b : Z) (t : list Z) :
  needed st <> 0 -> lower st <= b <= upper st -> seen st + 1 = needed st ->
  utf8_decode st (b :: t) = (cp st * 64 + b mod 64) :: utf8_decode utf8_init t.
Proof.
  intros Hn Hb Hs. cbn [utf8_decode].
  replace (needed st =? 0) with false by (symmetry; now apply Z.eqb_neq).
  replace (lower st <=? b) with true by (symmetry; apply Z.leb_le; lia).
  replace (b <=? upper st) with true by (symmetry; apply Z.leb_le; lia).
  replace (seen st + 1 =? needed st) with true by (symmetry; now apply Z.eqb_eq).
  reflexivity.
Qed.

(** Side conditions on the fields of a decoder state. *)
Ltac state_bounds :=
  cbn [cp seen needed lower upper];
  repeat match goal with
    | |- context [if ?a =? ?b then _ else _] =>
        let E := fresh "E" in
        destruct (a =? b) eqn:E; [apply Z.eqb_eq in E | apply Z.eqb_neq in E]
    end;
  zdm.

(** Decoding the bytes of a scalar value gives the scalar value back and
    leaves the decoder in its initial state. *)
Lemma utf8_decode_bytes (c : Z) (rest : list Z) :
  is_scalar c ->
  utf8_decode utf8_init (utf8_bytes c ++ rest) = c :: utf8_decode utf8_init rest.
Proof.
  intros [Hr Hs]. unfold utf8_bytes.
  destruct (c <? 0x80) eqn:E1; [apply Z.ltb_lt in E1 | apply Z.ltb_ge in E1].
  { cbn [app]. rewrite utf8_decode_lead, utf8_lead_1 by lia. reflexivity. }
  destruct (c <? 0x800) eqn:E2; [apply Z.ltb_lt in E2 | apply Z.ltb_ge in E2].
  { cbn [app]. rewrite utf8_decode_lead, utf8_lead_2 by zdm. cbn [fst snd app].
    rewrite utf8_decode_complete by state_bounds.
    f_equal. state_bounds. }
  destruct (c <? 0x10000) eqn:E3; [apply Z.ltb_lt in E3 | apply Z.ltb_ge in E3].
  { cbn [app]. rewrite utf8_decode_lead, utf8_lead_3 by zdm. cbn [fst snd app].
    rewrite utf8_decode_continue by state_bounds.
    rewrite utf8_decode_complete by state_bounds.
    f_equal. state_bounds. }
  cbn [app]. rewrite utf8_decode_lead, utf8_lead_4 by zdm. cbn [fst snd app].
  rewrite utf8_decode_continue by state_bounds.
  rewrite utf8_decode_continue by state_bounds.
  rewrite utf8_decode_complete by state_bounds.
  f_equal. state_bounds.
Qed.

Lemma utf8_decode_flat_map (cs : list Z) :
  Forall is_scalar cs ->
  utf8_decode utf8_init (flat_map utf8_bytes cs) = cs.
Proof.
  induction 1 as [|c cs Hc _ IH]; [reflexivity|].
  cbn [flat_map]. rewrite utf8_decode_bytes by assumption. now rewrite IH.
Qed.

(** The bytes of a text begin with a byte order mark only if the text
    begins with U+FEFF. *)
Lemma skip_bom_flat_map (c : Z) (cs : list Z) :
  is_scalar c -> c <> 0xFEFF ->
  skip_bom (utf8_bytes c ++ flat_map utf8_bytes cs)
  = utf8_bytes c ++ flat_map utf8_bytes cs.
Proof.
  intros [Hr Hs] Hc. unfold utf8_bytes.
  destruct (c <? 0x80) eqn:E1; [apply Z.ltb_lt in E1 | apply Z.ltb_ge in E1].
  { cbn [app]. unfold skip_bom.
    destruct (flat_map _ cs) as [|b1 [|b2 t]]; try reflexivity.
    replace (c =? 0xEF) with false by (symmetry; apply Z.eqb_neq; lia).
    reflexivity. }
  destruct (c <? 0x800) eqn:E2; [apply Z.ltb_lt in E2 | apply Z.ltb_ge in E2].
  { cbn [app]. unfold skip_bom.
    destruct (flat_map _ cs) as [|b2 t]; try reflexivity.
    replace (0xC0 + c / 64 =? 0xEF) with false by (symmetry; apply Z.eqb_neq; zdm).
    reflexivity. }
  destruct (c <? 0x10000) eqn:E3; [apply Z.ltb_lt in E3 | apply Z.ltb_ge in E3].
  { cbn [app]. unfold skip_bom.
    destruct ((0xE0 + c / 4096 =? 0xEF) && (0x80 + (c / 64) mod 64 =? 0xBB)
              && (0x80 + c mod 64 =? 0xBF)) eqn:E; [|reflexivity].
    apply andb_true_iff in E as [E Ec]. apply andb_true_iff in E as [Ea Eb].
    apply Z.eqb_eq in Ea, Eb, Ec. exfalso. apply Hc. zdm. }
  cbn [app]. unfold skip_bom.
  replace (0xF0 + c / 262144 =? 0xEF) with false
    by (symmetry; apply Z.eqb_neq; zdm).
  reflexivity.
Qed.

(** *** Well-formed strings *)

Lemma surrogate_pair_units (hi lo : Z) :
  is_high_surrogate hi = true -> is_low_surrogate lo = true ->
  is_scalar (surrogate_pair hi lo) /\
  surrogate_pair hi lo <> 0xFEFF /\
  utf16_units (surrogate_pair hi lo) = [hi; lo].
Proof.
  unfold is_high_surrogate, is_low_surrogate, surrogate_pair, utf16_units, is_scalar.
  rewrite !andb_true_iff, !Z.leb_le. intros [H1 H2] [L1 L2].
  repeat split; try lia.
  replace (_ <? 0x10000) with false by (symmetry; apply Z.ltb_ge; lia).
  f_equal; [|f_equal]; zdm.
Qed.

Lemma code_unit_scalar (u : Z) :
  is_code_unit u -> is_high_surrogate u = false -> is_low_surrogate u = false ->
  is_scalar u /\ utf16_units u = [u].
Proof.
  unfold is_code_unit, is_high_surrogate, is_low_surrogate, utf16_units, is_scalar.
  rewrite !andb_false_iff, !Z.leb_gt. intros Hu Hh Hl.
  repeat split; try lia.
  replace (u <? 0x10000) with true by (symmetry; apply Z.ltb_lt; lia).
  reflexivity.
Qed.

(** The code points of a well-formed string are scalar values, and
    their UTF-16 code units are the string. *)
Lemma code_points_well_formed (n : nat) (s : JsString) :
  (List.length s <= n)%nat ->
  Forall is_code_unit s -> isWellFormed s = true ->
  exists cs,
    code_points s = map Some cs /\
    Forall is_scalar cs /\
    flat_map utf16_units cs = s /\
    (hd 0 s <> 0xFEFF -> hd 0 cs <> 0xFEFF).
Proof.
  revert s. induction n as [|n IH]; intros s Hn Hu Hw.
  { destruct s; [|simpl in Hn; lia]. exists []. repeat split; auto. }
  destruct s as [|u t]; [exists []; repeat split; auto|].
  unfold isWellFormed in Hw. cbn [code_points] in *.
  inversion Hu as [|? ? Hu0 Hut]; subst.
  destruct (is_high_surrogate u) eqn:Eh.
  - destruct t as [|l t']; [discriminate|].
    destruct (is_low_surrogate l) eqn:El; [|discriminate].
    cbn [forallb andb] in Hw. inversion Hut as [|? ? _ Hut']; subst.
    destruct (IH t') as (cs & Hcs & Hsc & Hunits & _);
      [simpl in Hn; lia | assumption | exact Hw |].
    destruct (surrogate_pair_units u l Eh El) as (Hs & Hbom & Hp).
    exists (surrogate_pair u l :: cs). repeat split.
    + cbn [map]. now rewrite Hcs.
    + now constructor.
    + cbn [flat_map]. now rewrite Hp, Hunits.
    + intros _. exact Hbom.
  - destruct (is_low_surrogate u) eqn:El; [discriminate|].
    cbn [forallb andb] in Hw.
    destruct (IH t) as (cs & Hcs & Hsc & Hunits & _);
      [simpl in Hn; lia | assumption | exact Hw |].
    destruct (code_unit_scalar u Hu0 Eh El) as (Hs & Hp).
    exists (u :: cs). repeat split.
    + cbn [map]. now rewrite Hcs.
    + now constructor.
    + cbn [flat_map]. now rewrite Hp, Hunits.
    + auto.
Qed.

Lemma flat_map_Some (cs : list Z) :
  flat_map (fun c => utf8_bytes (match c with Some c => c | None => 0xFFFD end))
           (map Some cs)
  = flat_map utf8_bytes cs.
Proof. induction cs as [|c cs IH]; [reflexivity|]. cbn [map flat_map]. now rewrite IH. Qed.

(** Encoding a well-formed string that does not begin with U+FEFF and
    decoding the bytes gives the string back. *)
Lemma TextDecoder_decode_encode (s : JsString) :
  Forall is_code_unit s -> isWellFormed s = true -> hd 0 s <> 0xFEFF ->
  TextDecoder_decode (TextEncoder_encode s) = s.
Proof.
  intros Hu Hw Hbom.
  destruct (code_points_well_formed (List.length s) s (le_n _) Hu Hw)
    as (cs & Hcs & Hsc & Hunits & Hhd).
  unfold TextDecoder_decode, TextEncoder_encode.
  rewrite Hcs, flat_map_Some.
  assert (skip_bom (flat_map utf8_bytes cs) = flat_map utf8_bytes cs) as ->.
  { destruct cs as [|c cs]; [reflexivity|]. cbn [flat_map].
    inversion Hsc; subst. apply skip_bom_flat_map; [assumption|].
    now apply Hhd. }
  now rewrite utf8_decode_flat_map.
Qed.

(** A string that is not empty has bytes. *)
Lemma TextEncoder_encode_nonempty (s : JsString) :
  s <> [] -> TextEncoder_encode s <> [].
Proof.
  destruct s as [|u t]; [congruence|]. intros _. unfold TextEncoder_encode.
  assert (forall c, utf8_bytes c <> []) as Hb.
  { intros c. unfold utf8_bytes.
    destruct (c <? 0x80), (c <? 0x800), (c <? 0x10000); discriminate. }
  cbn [code_points].
  destruct (is_high_surrogate u); [destruct t as [|l t']; [|destruct (is_low_surrogate l)]
                                  | destruct (is_low_surrogate u)];
    cbn [flat_map]; intros H; apply app_eq_nil in H as [H _]; now apply Hb in H.
Qed.

(** A source literal is made of code units, all of them ASCII. *)
Lemma lit_code_units (s : string) : Forall is_code_unit (lit s).
Proof.
  unfold lit. induction s as [|a s IH]; cbn [list_ascii_of_string map];
    constructor; [|exact IH].
  unfold is_code_unit. pose proof (N_ascii_bounded a). lia.
Qed.

(** ** auth/signer.ts: a text and its bytes *)

(** C6 (counterexample): for the text U+FEFF ["hi"], signing the string
    answers the text itself as [message], and signing its bytes answers
    ["hi"], without the leading U+FEFF; for the text made of the lone
    surrogate U+D800, signing the bytes answers U+FFFD. *)
Lemma text_and_bytes_messages_differ :
  (signMessage (Some (Fixtures.mockAdapter (Resolved (Some [1; 2; 3])) "wallet"))
     (Text [0xFEFF; 104; 105])
   = Resolved {| SignResult.address := lit "wallet";
                 SignResult.message := [0xFEFF; 104; 105];
                 SignResult.signature := [1; 2; 3] |}
   /\
   signMessage (Some (Fixtures.mockAdapter (Resolved (Some [1; 2; 3])) "wallet"))
     (Bytes (TextEncoder_encode [0xFEFF; 104; 105]))
   = Resolved {| SignResult.address := lit "wallet";
                 SignResult.message := [104; 105];
                 SignResult.signature := [1; 2; 3] |})
  /\
  (signMessage (Some (Fixtures.mockAdapter (Resolved (Some [1; 2; 3])) "wallet"))
     (Text [0xD800])
   = Resolved {| SignResult.address := lit "wallet";
                 SignResult.message := [0xD800];
                 SignResult.signature := [1; 2; 3] |}
   /\
   signMessage (Some (Fixtures.mockAdapter (Resolved (Some [1; 2; 3])) "wallet"))
     (Bytes (TextEncoder_encode [0xD800]))
   = Resolved {| SignResult.address := lit "wallet";
                 SignResult.message := [0xFFFD];
                 SignResult.signature := [1; 2; 3] |}).
Proof. repeat split; vm_compute; reflexivity. Qed.

(** C6 (amended): for every non-empty string [m] that is well formed
    (no surrogate code unit stands alone) and does not begin with
    U+FEFF, signing [m] as a string and signing its UTF-8 bytes with the
    same signer capability have the same outcome, the [message] of a
    result is [m], and there is a result whenever the signer answers a
    non-empty signature and the identity can be read. *)
Theorem signMessage_text_and_bytes
    (walletAdapter : option WalletAdapter.t) (m : JsString) :
  m <> [] -> Forall is_code_unit m -> isWellFormed m = true -> hd 0 m <> 0xFEFF ->
  signMessage walletAdapter (Bytes (TextEncoder_encode m))
    = signMessage walletAdapter (Text m) /\
  (forall r, signMessage walletAdapter (Text m) = Resolved r ->
             SignResult.message r = m) /\
  (forall adapter sign publicKey address b sig,
      walletAdapter = Some adapter ->
      WalletAdapter.signMessage adapter = Some sign ->
      WalletAdapter.publicKey adapter = Some publicKey ->
      WalletAdapter.toBase58 publicKey = inr address ->
      sign (TextEncoder_encode m) = Resolved (Some (b :: sig)) ->
      signMessage walletAdapter (Text m)
      = Resolved {| SignResult.address := address;
                    SignResult.message := m;
                    SignResult.signature := b :: sig |}).
Proof.
  intros Hne Hu Hw Hbom. repeat split.
  - unfold signMessage. cbn [messageBytes].
    now rewrite (TextDecoder_decode_encode m Hu Hw Hbom).
  - intros r. unfold signMessage.
    destruct walletAdapter as [adapter|]; [|discriminate].
    destruct (WalletAdapter.signMessage adapter) as [sign|]; [|discriminate].
    destruct (WalletAdapter.publicKey adapter) as [publicKey|]; [|discriminate].
    destruct (_ =? 0); [discriminate|].
    destruct (sign (messageBytes (Text m))) as [[[|b sig]|] | cause | ];
      cbn [await try_catch]; try discriminate.
    + destruct (WalletAdapter.toBase58 publicKey) as [thrown|address];
        cbn [try_catch].
      * destruct (instanceof_ValidationError thrown); discriminate.
      * now intros [= <-].
    + destruct (instanceof_ValidationError cause); discriminate.
  - intros adapter sign publicKey address b sig -> Hs Hp Ha Hsig.
    unfold signMessage. rewrite Hs, Hp. cbn [messageBytes].
    pose proof (TextEncoder_encode_nonempty m Hne) as Hb.
    destruct (TextEncoder_encode m) as [|b0 bytes] eqn:Eb; [congruence|].
    cbn [List.length]. rewrite Nat2Z.inj_succ.
    destruct (Z.succ _ =? 0) eqn:E0; [apply Z.eqb_eq in E0; lia|].
    rewrite Hsig. cbn [await]. rewrite Ha. reflexivity.
Qed.

Lemma signMessage_text_and_bytes_witness :
  signMessage (Some (Fixtures.mockAdapter (Resolved (Some [1; 2; 3])) "wallet"))
    (Bytes (TextEncoder_encode (lit "Hello, Solana!")))
  = signMessage (Some (Fixtures.mockAdapter (Resolved (Some [1; 2; 3])) "wallet"))
      (Text (lit "Hello, Solana!"))
  /\
  signMessage (Some (Fixtures.mockAdapter (Resolved (Some [1; 2; 3])) "wallet"))
    (Text (lit "Hello, Solana!"))
  = Resolved {| SignResult.address := lit "wallet";
                SignResult.message := lit "Hello, Solana!";
                SignResult.signature := [1; 2; 3] |}.
Proof.
  assert (lit "Hello, Solana!" <> []) as Hne by discriminate.
  pose proof (lit_code_units "Hello, Solana!") as Hu.
  assert (hd 0 (lit "Hello, Solana!") <> 0xFEFF) as Hbom by discriminate.
  destruct (signMessage_text_and_bytes
              (Some (Fixtures.mockAdapter (Resolved (Some [1; 2; 3])) "wallet"))
              (lit "Hello, Solana!") Hne Hu eq_refl Hbom) as (Heq & _ & Hres).
  split; [exact Heq|].
  exact (Hres (Fixtures.mockAdapter (Resolved (Some [1; 2; 3])) "wallet")
              (fun _ => Resolved (Some [1; 2; 3]))
              {| WalletAdapter.toBase58 := inr (lit "wallet") |}
              (lit "wallet") 1 [2; 3] eq_refl eq_refl eq_refl eq_refl eq_refl).
Defined.

(** ** The ways an operation ends *)

(** The race against the timer is always settled: with what the promise
    settled with, or with a TimeoutError. *)
Lemma withTimeout_cases {T : Type} (p : Eventually T) (timeout : number) :
  match withTimeout p timeout with
  | Resolved r => outcome p = Resolved r
  | Rejected e => outcome p = Rejected e \/ kind e = Some Timeout
  | Pending => False
  end.
Proof.
  unfold withTimeout, Promise_race, createTimeoutPromise. cbn [outcome after_ms].
  destruct (outcome p); try destruct (_ <=? _); auto.
Qed.




Lemma not_a_string (v : JsValue) :
  not_a T_string v = false -> exists c s, v = JString (c :: s).
Proof.
  destruct v as [ | | b | n | [|c s] | l | l ]; try discriminate; eauto.
  - unfold not_a. cbn [typeof type_eqb negb]. now rewrite orb_true_r.
  - unfold not_a. cbn [typeof type_eqb negb]. now rewrite orb_true_r.
Qed.




(** ** The cases of the test suite, run on the embedding *)

Example number_toString_cases :
  Number_toString (int 30000) = lit "30000" /\
  Number_toString (Dec 105 (-1)) = lit "10.5" /\
  Number_toString (Dec 1000 (-1)) = lit "100" /\
  Number_toString (Dec 5 (-3)) = lit "0.005" /\
  Number_toString (Dec 15 (-8)) = lit "1.5e-7" /\
  Number_toString (Dec (-1) 21) = lit "-1e+21".
Proof. repeat split; vm_compute; reflexivity. Qed.

Example text_encoding_cases :
  TextEncoder_encode [0xD83D; 0xDE00; 0x20AC; 0xE9]
    = [0xF0; 0x9F; 0x98; 0x80; 0xE2; 0x82; 0xAC; 0xC3; 0xA9] /\
  TextDecoder_decode [0xF0; 0x9F; 0x98; 0x80; 0xE2; 0x82; 0xAC; 0xC3; 0xA9]
    = [0xD83D; 0xDE00; 0x20AC; 0xE9] /\
  TextDecoder_decode [0xE2; 0x82; 0x41; 0xC0; 0x80; 0xF0; 0x9F]
    = [0xFFFD; 0x41; 0xFFFD; 0xFFFD; 0xFFFD] /\
  encodeURIComponent (lit "a b&c/So11") = Some (lit "a%20b%26c%2FSo11") /\
  encodeURIComponent [0x20AC] = Some (lit "%E2%82%AC") /\
  encodeURIComponent [0xD800] = None.
Proof. repeat split; vm_compute; reflexivity. Qed.

Example json_stringify_case :
  JSON_stringify
    (JObject [(lit "wallet", JString (lit "ABC"));
              (lit "skipped", JUndefined);
              (lit "signature",
               JArray [JNumber (int 1); JNumber (Dec 25 (-1)); JUndefined;
                       JBool true; JNull])])
  = Some (lit "{" ++ [34] ++ lit "wallet" ++ [34] ++ lit ":" ++ [34] ++ lit "ABC"
          ++ [34] ++ lit "," ++ [34] ++ lit "signature" ++ [34]
          ++ lit ":[1,2.5,null,true,null]}").
Proof. vm_compute. reflexivity. Qed.

(** client.test.ts: the trailing slash is removed, the timeout defaults
    to 30000, and an endpoint without scheme is refused. *)
Example normalizeConfig_cases :
  normalizeConfig (Fixtures.partial "https://api.example.com/" None None)
    = inr (Fixtures.partial "https://api.example.com" (Some (int 30000)) None) /\
  normalizeConfig (Fixtures.partial "https://api.example.com//" (Some (int 10000)) None)
    = inr (Fixtures.partial "https://api.example.com/" (Some (int 10000)) None) /\
  normalizeConfig (Fixtures.partial "not-a-url" None None)
    = inl (OtherError (lit "Error")
             (lit "baseUrl must start with http:// or https://")) /\
  normalizeConfig (Fixtures.config_without_baseUrl None)
    = inl (OtherError (lit "Error") (lit "baseUrl is required")).
Proof. repeat split; vm_compute; reflexivity. Qed.

(** auth.test.ts, [signMessage] *)
Example signMessage_cases :
  signMessage (Some (Fixtures.mockAdapter (Resolved (Some [1; 2; 3]))
                       "11111111111111111111111111111111"))
    (Text (lit "Hello, Solana!"))
  = Resolved {| SignResult.address := lit "11111111111111111111111111111111";
                SignResult.message := lit "Hello, Solana!";
                SignResult.signature := [1; 2; 3] |} /\
  signMessage (Some (Fixtures.mockAdapter (Resolved (Some [7; 8; 9])) "wallet456"))
    (Bytes (TextEncoder_encode (lit "binary message")))
  = Resolved {| SignResult.address := lit "wallet456";
                SignResult.message := lit "binary message";
                SignResult.signature := [7; 8; 9] |} /\
  signMessage None (Text (lit "message"))
  = Rejected (ValidationError (lit "Wallet adapter is required")) /\
  signMessage (Some (Fixtures.mockAdapter Pending "wallet")) (Text [])
  = Rejected (ValidationError (lit "Message cannot be empty")) /\
  signMessage (Some (Fixtures.mockAdapter (Resolved (Some [])) "wallet"))
    (Text (lit "message"))
  = Rejected (ValidationError (lit "Wallet returned invalid signature")).
Proof. repeat split; vm_compute; reflexivity. Qed.

(** auth.test.ts, [verifySignature]: one POST to [/api/auth/verify]
    with the payload as JSON body, and the parsed answer as result. *)
Example verifySignature_case :
  verifySignature None Fixtures.payload
    (Fixtures.config
       (Some (Fixtures.mockResolvedValue
                (Fixtures.Response_json 200 (lit "OK")
                   (JObject [(lit "verified", JBool true)])))))
  = ([(lit "https://api.example.com/api/auth/verify",
       {| RequestInit.method := lit "POST";
          RequestInit.headers := Fixtures.json_headers;
          RequestInit.body := JSON_stringify (JObject Fixtures.payload) |})],
     Resolved (JObject [(lit "verified", JBool true)])).
Proof. vm_compute. reflexivity. Qed.

(** wallet.test.ts: the URL of the request, and a 404. *)
Example getWalletBalance_cases :
  getWalletBalance None Fixtures.wallet_address
    (Fixtures.config
       (Some (Fixtures.mockResolvedValue
                (Fixtures.Response_json 200 (lit "OK")
                   (Fixtures.balance_body (JNumber (Dec 105 (-1))) "SOL")))))
  = ([(lit "https://api.example.com/api/wallet/balance?address=So1111111111111111111111111111111111111112",
       {| RequestInit.method := lit "GET";
          RequestInit.headers := Fixtures.json_headers;
          RequestInit.body := None |})],
     Resolved (Fixtures.balance_body (JNumber (Dec 105 (-1))) "SOL")) /\
  result (getWalletBalance None Fixtures.wallet_address
            (Fixtures.config
               (Some (Fixtures.mockResolvedValue
                        (Fixtures.Response_json 404 (lit "Not Found")
                           (JObject [(lit "error", JString (lit "Not found"))]))))))
  = Rejected (HTTPError (lit "HTTP 404: Not Found") (int 404) (lit "Not Found")
                (JObject [(lit "error", JString (lit "Not found"))])) /\
  result (getWalletBalance None (JString []) (Fixtures.config None))
  = Rejected (ValidationError (lit "Valid wallet address is required")) /\
  result (getWalletBalance None (JString [0xD800])
            (Fixtures.config (Some Fixtures.mockNeverSettles)))
  = Rejected (OtherError (lit "URIError") (lit "URI malformed")).
Proof. repeat split; vm_compute; reflexivity. Qed.

(** http.test.ts: a TypeError of the transport becomes a NetworkError,
    and a transport slower than the deadline a TimeoutError that carries
    the deadline. *)
Example httpRequest_cases :
  result (httpRequest None (lit "https://api.example.com/test")
            (fetch_timeout
               (Fixtures.config
                  (Some (Fixtures.mockRejectedValue (TypeError (lit "Failed to fetch")))))
               (int 5000)))
  = Rejected (NetworkError (lit "Network request failed: Failed to fetch")
                (Some (TypeError (lit "Failed to fetch")))) /\
  result (httpRequest None (lit "https://api.example.com/slow")
            (fetch_timeout
               (Fixtures.config
                  (Some (Fixtures.mockResolvesAfter 10000
                           (Fixtures.Response_json 200 (lit "OK")
                              (JObject [(lit "ok", JBool true)])))))
               (int 100)))
  = Rejected (TimeoutError (lit "Request timeout after 100ms") (int 100)) /\
  result (httpRequest None (lit "https://api.example.com/test")
            (fetch_timeout (Fixtures.config None) (int 5000)))
  = Rejected (NetworkError (lit "Network request failed: fetchFn is not a function")
                (Some (TypeError (lit "fetchFn is not a function")))).
Proof. repeat split; vm_compute; reflexivity. Qed.

(** pipeline.test.ts *)
Example createPipeline_cases :
  createPipeline None
    (JObject [(lit "name", JString (lit "My Pipeline"));
              (lit "description", JString (lit "Test pipeline"))])
    (Fixtures.config
       (Some (Fixtures.mockResolvedValue
                (Fixtures.Response_json 200 (lit "OK")
                   (JObject [(lit "pipelineId", JString (lit "pipe_123"));
                             (lit "status", JString (lit "active"))])))))
  = ([(lit "https://api.example.com/api/pipeline/create",
       {| RequestInit.method := lit "POST";
          RequestInit.headers := Fixtures.json_headers;
          RequestInit.body :=
            JSON_stringify
              (JObject [(lit "name", JString (lit "My Pipeline"));
                        (lit "description", JString (lit "Test pipeline"))]) |})],
     Resolved (JObject [(lit "pipelineId", JString (lit "pipe_123"));
                        (lit "status", JString (lit "active"))])) /\
  result (createPipeline None (JObject [(lit "name", JString (lit "Test"))])
            (Fixtures.config
               (Some (Fixtures.mockResolvedValue
                        (Fixtures.Response_json 200 (lit "OK")
                           (JObject [(lit "status", JString (lit "active"))]))))))
  = Rejected (ValidationError (lit "Pipeline ID is required in response")) /\
  createPipeline None JNull (Fixtures.config None)
  = ([], Rejected (ValidationError (lit "Pipeline configuration is required"))).
Proof. repeat split; vm_compute; reflexivity. Qed.

(** ** utils/timeout.ts: the race against the timer *)

Lemma num_trunc_ge_1 (timeout : number) (hi : Z) :
  num_ge timeout 1 = true -> num_le timeout hi = true -> 1 <= num_trunc timeout.
Proof.
  destruct timeout as [m e | | | ]; cbn [num_ge num_le num_trunc];
    try discriminate.
  destruct (0 <=? e) eqn:E; intros H _; apply Z.leb_le in H; [exact H|].
  apply Z.leb_gt in E.
  assert (0 < 10 ^ (- e)) as Hp by (apply Z.pow_pos_nonneg; lia).
  apply Z.quot_le_lower_bound; lia.
Qed.

(** The timer never fires before one millisecond has passed. *)
Lemma timer_delay_ge_1 (timeout : number) : 1 <= timer_delay timeout.
Proof.
  unfold timer_delay.
  destruct (num_ge timeout 1) eqn:E; cbn [andb]; [|lia].
  destruct (num_le timeout 2147483647) eqn:E'; [|lia].
  now apply (num_trunc_ge_1 timeout 2147483647).
Qed.

Lemma withTimeout_in_time {T : Type} (p : Eventually T) (timeout : number) :
  settles_in_time p timeout -> withTimeout p timeout = outcome p.
Proof.
  intros [Hs Ht]. unfold withTimeout, Promise_race, createTimeoutPromise.
  cbn [outcome after_ms].
  replace (after_ms p <=? timer_delay timeout) with true
    by (symmetry; now apply Z.leb_le).
  destruct (outcome p); congruence.
Qed.

Lemma withTimeout_too_late {T : Type} (p : Eventually T) (timeout : number) :
  too_late p timeout ->
  withTimeout p timeout =
  Rejected (TimeoutError
              (lit "Request timeout after " ++ Number_toString timeout ++ lit "ms")
              timeout).
Proof.
  unfold too_late. intros H.
  unfold withTimeout, Promise_race, createTimeoutPromise.
  cbn [outcome after_ms].
  destruct (outcome p) eqn:E; try reflexivity;
    destruct H as [H | H]; try discriminate;
    replace (after_ms p <=? timer_delay timeout) with false
      by (symmetry; apply Z.leb_gt; lia); reflexivity.
Qed.

(** X1: [withTimeout] is always settled: with the outcome of the promise
    when the promise settles no later than the timer, and otherwise with
    a TimeoutError whose [timeout] field is the deadline it was given
    and whose message names it.  A promise that is settled at once wins
    against every deadline, zero, negative and NaN included. *)
Theorem withTimeout_outcome {T : Type} (p : Eventually T) (timeout : number) :
  withTimeout p timeout <> Pending /\
  (settles_in_time p timeout -> withTimeout p timeout = outcome p) /\
  (too_late p timeout ->
   withTimeout p timeout =
   Rejected (TimeoutError
               (lit "Request timeout after " ++ Number_toString timeout ++ lit "ms")
               timeout)) /\
  (outcome p <> Pending -> after_ms p <= 0 -> withTimeout p timeout = outcome p).
Proof.
  repeat split.
  - pose proof (withTimeout_cases p timeout) as H.
    destruct (withTimeout p timeout); [discriminate | discriminate | contradiction].
  - apply withTimeout_in_time.
  - apply withTimeout_too_late.
  - intros Hs Ht. apply withTimeout_in_time. split; [exact Hs|].
    pose proof (timer_delay_ge_1 timeout). lia.
Qed.

Lemma withTimeout_outcome_witness :
  withTimeout {| after_ms := 0; outcome := Resolved 7 |} NaN = Resolved 7 /\
  withTimeout {| after_ms := 10000; outcome := Resolved 7 |} (int 100)
  = Rejected (TimeoutError (lit "Request timeout after 100ms") (int 100)).
Proof.
  split.
  - refine (proj2 (proj2 (proj2 (withTimeout_outcome
             {| after_ms := 0; outcome := Resolved 7 |} NaN))) _ _).
    + discriminate.
    + cbn. lia.
  - refine (proj1 (proj2 (proj2 (withTimeout_outcome
             {| after_ms := 10000; outcome := Resolved 7 |} (int 100)))) _).
    right. vm_compute. reflexivity.
Defined.

(** ** utils/http.ts: how a request ends *)

Lemma declares_json_eq (r : Response.t) :
  match Response.content_type r with
  | Some ct => truthy (JString ct) && includes ct (lit "application/json")
  | None => false
  end = declares_json r.
Proof.
  unfold declares_json. destruct (Response.content_type r) as [[|c ct]|];
    reflexivity.
Qed.

Lemma response_in_time {T : Type} (p : Eventually T) (timeout : number)
    (settled : Promise T) :
  outcome p = settled -> settled <> Pending ->
  after_ms p <= timer_delay timeout ->
  withTimeout p timeout = settled.
Proof.
  intros <- Hs Ht. apply withTimeout_in_time. now split.
Qed.

(** Brings the result of [httpRequest] to the outcome of the race. *)
Ltac open_httpRequest options Hf :=
  unfold fetchFn_of in Hf; unfold httpRequest, call_fetch;
  fold (requestInit_of options); rewrite Hf;
  rewrite result_catch, result_bind; change (result (?l, ?p)) with p.

(** X2: when the transport answers in time a response that is not [ok],
    [httpRequest] is rejected with an HTTPError that carries the status,
    the status text and the message ["HTTP <status>: <statusText>"]; its
    [data] is the parsed body when the response declares JSON, and
    [undefined] otherwise, in which case the text reader is not awaited
    (a reader that fails or never settles changes nothing). *)
Theorem httpRequest_bad_status (gf : option FetchFn) (url : JsString)
    (options : HttpRequestOptions.t) (f : FetchFn) (r : Response.t) :
  fetchFn_of gf options = Some f ->
  outcome (f url (requestInit_of options)) = Resolved r ->
  after_ms (f url (requestInit_of options))
    <= timer_delay (HttpRequestOptions.timeout options) ->
  Response.ok r = false ->
  (declares_json r = false ->
   result (httpRequest gf url options)
   = Rejected (HTTPError (HTTPError_message r) (Response.status r)
                 (Response.statusText r) JUndefined)) /\
  (forall data,
      declares_json r = true -> Response.json r = Resolved data ->
      result (httpRequest gf url options)
      = Rejected (HTTPError (HTTPError_message r) (Response.status r)
                    (Response.statusText r) data)).
Proof.
  intros Hf Hr Ht Hok.
  assert (withTimeout (f url (requestInit_of options))
            (HttpRequestOptions.timeout options) = Resolved r) as Hrace
    by (apply response_in_time; [assumption | discriminate | assumption]).
  split; [intros Hj | intros data Hj Hd]; open_httpRequest options Hf;
    rewrite Hrace, result_bind, declares_json_eq, Hj, Hok; [|rewrite Hd];
    reflexivity.
Qed.

Lemma httpRequest_bad_status_witness :
  result (httpRequest None Samples.url
            (Samples.options None 5000
               (Some (Fixtures.mockResolvedValue
                        (Samples.Response_text 502 (lit "Bad Gateway")
                           (Some (lit "text/html")) Pending Pending)))))
  = Rejected (HTTPError (lit "HTTP 502: Bad Gateway") (int 502)
                (lit "Bad Gateway") JUndefined).
Proof.
  refine (proj1 (httpRequest_bad_status None Samples.url
                   (Samples.options None 5000
                      (Some (Fixtures.mockResolvedValue
                               (Samples.Response_text 502 (lit "Bad Gateway")
                                  (Some (lit "text/html")) Pending Pending))))
                   _ _ eq_refl eq_refl _ eq_refl) eq_refl).
  vm_compute. discriminate.
Defined.

(** X3: when the transport answers in time a response that is [ok],
    [httpRequest] resolves with the parsed body, whatever its shape,
    when the response declares JSON, and with the body text as a string
    otherwise. *)
Theorem httpRequest_ok (gf : option FetchFn) (url : JsString)
    (options : HttpRequestOptions.t) (f : FetchFn) (r : Response.t) :
  fetchFn_of gf options = Some f ->
  outcome (f url (requestInit_of options)) = Resolved r ->
  after_ms (f url (requestInit_of options))
    <= timer_delay (HttpRequestOptions.timeout options) ->
  Response.ok r = true ->
  (forall data,
      declares_json r = true -> Response.json r = Resolved data ->
      result (httpRequest gf url options) = Resolved data) /\
  (forall t,
      declares_json r = false -> Response.text r = Resolved t ->
      result (httpRequest gf url options) = Resolved (JString t)).
Proof.
  intros Hf Hr Ht Hok.
  assert (withTimeout (f url (requestInit_of options))
            (HttpRequestOptions.timeout options) = Resolved r) as Hrace
    by (apply response_in_time; [assumption | discriminate | assumption]).
  split; [intros data Hj Hd | intros t Hj Hd]; open_httpRequest options Hf;
    rewrite Hrace, result_bind, declares_json_eq, Hj; [|rewrite Hok, result_bind];
    change (result (lift ?p)) with p; rewrite Hd; cbn [result ret bind snd fst];
    rewrite ?Hok; reflexivity.
Qed.

Lemma httpRequest_ok_witness :
  result (httpRequest None Samples.url
            (Samples.options None 5000
               (Some (Fixtures.mockResolvedValue
                        (Samples.Response_text 200 (lit "OK")
                           (Some (lit "text/plain")) Pending
                           (Resolved (lit "pong")))))))
  = Resolved (JString (lit "pong")) /\
  result (httpRequest None Samples.url
            (Samples.options None 5000
               (Some (Samples.ok_json (JArray [JNumber (int 1); JNull])))))
  = Resolved (JArray [JNumber (int 1); JNull]).
Proof.
  split.
  - refine (proj2 (httpRequest_ok None Samples.url
                     (Samples.options None 5000
                        (Some (Fixtures.mockResolvedValue
                                 (Samples.Response_text 200 (lit "OK")
                                    (Some (lit "text/plain")) Pending
                                    (Resolved (lit "pong"))))))
                     _ _ eq_refl eq_refl _ eq_refl) _ eq_refl eq_refl).
    vm_compute. discriminate.
  - refine (proj1 (httpRequest_ok None Samples.url
                     (Samples.options None 5000
                        (Some (Samples.ok_json (JArray [JNumber (int 1); JNull]))))
                     _ _ eq_refl eq_refl _ eq_refl) _ eq_refl eq_refl).
    vm_compute. discriminate.
Defined.

(** X4: when the response declares JSON and its JSON reader fails,
    [httpRequest] is rejected with the reader's error, unchanged, unless
    that error is a TypeError, which is reported as a NetworkError; this
    is so for a response that is not [ok] as well, so that no HTTPError
    is raised for it. *)
Theorem httpRequest_json_reader_fails (gf : option FetchFn) (url : JsString)
    (options : HttpRequestOptions.t) (f : FetchFn) (r : Response.t)
    (e : Exn) :
  fetchFn_of gf options = Some f ->
  outcome (f url (requestInit_of options)) = Resolved r ->
  after_ms (f url (requestInit_of options))
    <= timer_delay (HttpRequestOptions.timeout options) ->
  declares_json r = true ->
  Response.json r = Rejected e ->
  (instanceof_TypeError e = false ->
   result (httpRequest gf url options) = Rejected e) /\
  (forall m, e = TypeError m ->
   result (httpRequest gf url options)
   = Rejected (NetworkError (lit "Network request failed: " ++ m) (Some e))).
Proof.
  intros Hf Hr Ht Hj Hd.
  assert (withTimeout (f url (requestInit_of options))
            (HttpRequestOptions.timeout options) = Resolved r) as Hrace
    by (apply response_in_time; [assumption | discriminate | assumption]).
  split; [intros He | intros m ->]; open_httpRequest options Hf;
    rewrite Hrace, result_bind, declares_json_eq, Hj;
    change (result (lift ?p)) with p; rewrite Hd; [|reflexivity].
  destruct e; try discriminate; reflexivity.
Qed.

Lemma httpRequest_json_reader_fails_witness :
  result (httpRequest None Samples.url
            (Samples.options None 5000
               (Some (Fixtures.mockResolvedValue
                        (Samples.Response_text 500 (lit "Internal Server Error")
                           (Some (lit "application/json; charset=utf-8"))
                           (Rejected (OtherError (lit "SyntaxError")
                                        (lit "Unexpected end of JSON input")))
                           (Resolved []))))))
  = Rejected (OtherError (lit "SyntaxError") (lit "Unexpected end of JSON input")).
Proof.
  refine (proj1 (httpRequest_json_reader_fails None Samples.url
                   (Samples.options None 5000
                      (Some (Fixtures.mockResolvedValue
                               (Samples.Response_text 500 (lit "Internal Server Error")
                                  (Some (lit "application/json; charset=utf-8"))
                                  (Rejected (OtherError (lit "SyntaxError")
                                               (lit "Unexpected end of JSON input")))
                                  (Resolved [])))))
                   _ _ _ eq_refl eq_refl _ eq_refl eq_refl) eq_refl).
  vm_compute. discriminate.
Defined.

(** X5: when the transport is never settled, or only after the timer
    has fired, [httpRequest] is rejected with a TimeoutError that
    carries the [timeout] of the options, and the transport function has
    been invoked once: there is no second attempt. *)
Theorem httpRequest_times_out (gf : option FetchFn) (url : JsString)
    (options : HttpRequestOptions.t) (f : FetchFn) :
  fetchFn_of gf options = Some f ->
  too_late (f url (requestInit_of options)) (HttpRequestOptions.timeout options) ->
  result (httpRequest gf url options)
  = Rejected (TimeoutError
                (lit "Request timeout after "
                 ++ Number_toString (HttpRequestOptions.timeout options)
                 ++ lit "ms")
                (HttpRequestOptions.timeout options)) /\
  calls (httpRequest gf url options) = [(url, requestInit_of options)].
Proof.
  intros Hf Hlate. split.
  - apply withTimeout_too_late in Hlate. open_httpRequest options Hf.
    rewrite Hlate. reflexivity.
  - rewrite httpRequest_calls. unfold fetchFn_of in Hf. now rewrite Hf.
Qed.

Lemma httpRequest_times_out_witness :
  result (httpRequest None Samples.url
            (Samples.options None 100 (Some Fixtures.mockNeverSettles)))
  = Rejected (TimeoutError (lit "Request timeout after 100ms") (int 100)) /\
  calls (httpRequest None Samples.url
           (Samples.options None 100 (Some Fixtures.mockNeverSettles)))
  = [(Samples.url,
      requestInit_of (Samples.options None 100 (Some Fixtures.mockNeverSettles)))].
Proof.
  refine (httpRequest_times_out None Samples.url
            (Samples.options None 100 (Some Fixtures.mockNeverSettles))
            _ eq_refl _).
  left. reflexivity.
Defined.

(** X6: when the transport function is rejected in time, a TypeError is
    reported as a NetworkError whose message is ["Network request
    failed: "] followed by the TypeError's message and whose
    [originalError] is the TypeError; every other error, classified or
    not, is passed on unchanged. *)
Theorem httpRequest_transport_rejects (gf : option FetchFn) (url : JsString)
    (options : HttpRequestOptions.t) (f : FetchFn) (e : Exn) :
  fetchFn_of gf options = Some f ->
  outcome (f url (requestInit_of options)) = Rejected e ->
  after_ms (f url (requestInit_of options))
    <= timer_delay (HttpRequestOptions.timeout options) ->
  (forall m, e = TypeError m ->
   result (httpRequest gf url options)
   = Rejected (NetworkError (lit "Network request failed: " ++ m)
                 (Some (TypeError m)))) /\
  (instanceof_TypeError e = false ->
   result (httpRequest gf url options) = Rejected e).
Proof.
  intros Hf Hr Ht.
  assert (withTimeout (f url (requestInit_of options))
            (HttpRequestOptions.timeout options) = Rejected e) as Hrace
    by (apply response_in_time; [assumption | discriminate | assumption]).
  split; [intros m -> | intros He]; open_httpRequest options Hf;
    rewrite Hrace; [reflexivity|].
  destruct e; try discriminate; reflexivity.
Qed.

Lemma httpRequest_transport_rejects_witness :
  result (httpRequest None Samples.url
            (Samples.options None 5000
               (Some (Fixtures.mockRejectedValue (TypeError (lit "Failed to fetch"))))))
  = Rejected (NetworkError (lit "Network request failed: Failed to fetch")
                (Some (TypeError (lit "Failed to fetch")))) /\
  result (httpRequest None Samples.url
            (Samples.options None 5000
               (Some (Fixtures.mockRejectedValue
                        (TimeoutError (lit "upstream") (int 1))))))
  = Rejected (TimeoutError (lit "upstream") (int 1)).
Proof.
  split.
  - refine (proj1 (httpRequest_transport_rejects None Samples.url
                     (Samples.options None 5000
                        (Some (Fixtures.mockRejectedValue
                                 (TypeError (lit "Failed to fetch")))))
                     _ _ eq_refl eq_refl _) _ eq_refl).
    vm_compute. discriminate.
  - refine (proj2 (httpRequest_transport_rejects None Samples.url
                     (Samples.options None 5000
                        (Some (Fixtures.mockRejectedValue
                                 (TimeoutError (lit "upstream") (int 1)))))
                     _ _ eq_refl eq_refl _) eq_refl).
    vm_compute. discriminate.
Defined.

(** X7: with no transport function at all, neither in the options nor
    on the platform, [httpRequest] is rejected with a NetworkError that
    wraps the TypeError of the call, and nothing is invoked. *)
Theorem httpRequest_without_transport (gf : option FetchFn) (url : JsString)
    (options : HttpRequestOptions.t) :
  fetchFn_of gf options = None ->
  calls (httpRequest gf url options) = [] /\
  exists m,
    result (httpRequest gf url options)
    = Rejected (NetworkError (lit "Network request failed: " ++ m)
                  (Some (TypeError m))).
Proof.
  intros Hf. split.
  - rewrite httpRequest_calls. unfold fetchFn_of in Hf. now rewrite Hf.
  - unfold fetchFn_of in Hf. unfold httpRequest, call_fetch. rewrite Hf.
    eexists. reflexivity.
Qed.

Lemma httpRequest_without_transport_witness :
  calls (httpRequest None Samples.url (Samples.options None 5000 None)) = [] /\
  exists m,
    result (httpRequest None Samples.url (Samples.options None 5000 None))
    = Rejected (NetworkError (lit "Network request failed: " ++ m)
                  (Some (TypeError m))).
Proof.
  exact (httpRequest_without_transport None Samples.url
           (Samples.options None 5000 None) eq_refl).
Defined.

(** *** The headers of the request *)

Lemma str_eqb_refl (s : JsString) : str_eqb s s = true.
Proof. now apply str_eqb_eq. Qed.

Lemma str_eqb_neq (s t : JsString) : s <> t -> str_eqb s t = false.
Proof.
  intros H. destruct (str_eqb s t) eqn:E; [|reflexivity].
  apply str_eqb_eq in E. contradiction.
Qed.

Lemma header_assign_same (a : list (JsString * JsString)) (k v : JsString) :
  header k (assign a k v) = Some v.
Proof.
  induction a as [|[k' v'] a IH]; cbn [assign header].
  - now rewrite str_eqb_refl.
  - destruct (str_eqb k' k) eqn:E; cbn [header]; rewrite E; [reflexivity | exact IH].
Qed.

Lemma header_assign_other (a : list (JsString * JsString)) (k k' v : JsString) :
  k' <> k -> header k (assign a k' v) = header k a.
Proof.
  intros Hk. induction a as [|[k0 v0] a IH]; cbn [assign header].
  - now rewrite str_eqb_neq.
  - destruct (str_eqb k0 k') eqn:E; cbn [header].
    + apply str_eqb_eq in E. subst k0. now rewrite str_eqb_neq.
    + now rewrite IH.
Qed.

Lemma header_not_in (k : JsString) (b : list (JsString * JsString)) :
  ~ In k (map fst b) -> header k b = None.
Proof.
  induction b as [|[k' v'] b IH]; cbn [map fst In header]; [reflexivity|].
  intros H. rewrite str_eqb_neq by tauto. apply IH. tauto.
Qed.

Lemma header_spread (a b : list (JsString * JsString)) (k : JsString) :
  NoDup (map fst b) ->
  header k (spread a b) =
  match header k b with
  | Some v => Some v
  | None => header k a
  end.
Proof.
  unfold spread. revert a. induction b as [|[k' v'] b IH]; intros a Hnd;
    cbn [fold_left fst snd header map] in *; [reflexivity|].
  inversion Hnd as [|? ? Hk Hnd']; subst. rewrite IH by assumption.
  destruct (str_eqb k' k) eqn:E.
  - apply str_eqb_eq in E. subst k'.
    rewrite (header_not_in k b Hk). apply header_assign_same.
  - assert (k' <> k) as Hne by (intros ->; now rewrite str_eqb_refl in E).
    now rewrite header_assign_other.
Qed.

(** X8: the headers of the request are the caller's headers [hs] (none
    when the options have no [headers]) over the default
    [Content-Type: application/json]: a header the caller gives
    is sent with the caller's value, also when it is [Content-Type], the
    default [Content-Type] is sent when the caller gives none, and no
    other header is sent. *)
Theorem httpRequest_headers (gf : option FetchFn) (url : JsString)
    (options : HttpRequestOptions.t) (f : FetchFn)
    (hs : list (JsString * JsString)) :
  fetchFn_of gf options = Some f ->
  match HttpRequestOptions.headers options with
  | Some h => h
  | None => []
  end = hs ->
  NoDup (map fst hs) ->
  exists requestInit,
    calls (httpRequest gf url options) = [(url, requestInit)] /\
    forall k,
      header k (RequestInit.headers requestInit) =
      match header k hs with
      | Some v => Some v
      | None => if str_eqb (lit "Content-Type") k
                then Some (lit "application/json")
                else None
      end.
Proof.
  intros Hf Hh Hnd. exists (requestInit_of options). split.
  - rewrite httpRequest_calls. unfold fetchFn_of in Hf. now rewrite Hf.
  - intros k. unfold requestInit_of. cbn [RequestInit.headers]. rewrite Hh.
    now rewrite header_spread.
Qed.

Lemma httpRequest_headers_witness :
  exists requestInit,
    calls (httpRequest None Samples.url
             (Samples.options
                (Some [(lit "X-Custom-Header", lit "value");
                       (lit "Content-Type", lit "text/plain")])
                5000 (Some (Samples.ok_json JNull))))
    = [(Samples.url, requestInit)] /\
    header (lit "Content-Type") (RequestInit.headers requestInit)
    = Some (lit "text/plain") /\
    header (lit "X-Custom-Header") (RequestInit.headers requestInit)
    = Some (lit "value").
Proof.
  destruct (httpRequest_headers None Samples.url
              (Samples.options
                 (Some [(lit "X-Custom-Header", lit "value");
                        (lit "Content-Type", lit "text/plain")])
                 5000 (Some (Samples.ok_json JNull)))
              _ _ eq_refl eq_refl) as (requestInit & Hcalls & Hheaders).
  - vm_compute. repeat constructor; cbn; intuition discriminate.
  - exists requestInit. split; [exact Hcalls|].
    split; rewrite Hheaders; reflexivity.
Defined.

(** ** The operations: one request, then the checks of the response *)

Lemma request_calls (gf : option FetchFn) (config : PipelinkConfig.t)
    (f : FetchFn) (url : JsString) (body : JsValue) :
  transport_of gf config = Some f ->
  calls (get gf url (fetch_timeout config (deadline_of config)))
    = [(url, GET_init)] /\
  (truthy body = true ->
   calls (post gf url body (fetch_timeout config (deadline_of config)))
     = [(url, POST_init body)]).
Proof.
  unfold transport_of. intros Hf. unfold get, post.
  rewrite !httpRequest_calls. cbn [HttpRequestOptions.fetch fetch_timeout].
  rewrite Hf. split; [reflexivity|]. intros Hb.
  unfold requestInit_of, POST_init.
  cbn [HttpRequestOptions.method HttpRequestOptions.headers HttpRequestOptions.body
       fetch_timeout]. now rewrite Hb.
Qed.

(** Checks that invoke nothing leave the invocations of the request. *)
Lemma checked_calls (m : Async JsValue) (checks : JsValue -> Async JsValue)
    (h : Exn -> Async JsValue) :
  (forall v, calls (checks v) = []) -> (forall e, h e = throw e) ->
  calls (catch (bind m checks) h) = calls m.
Proof.
  intros Hc Hh. rewrite catch_rethrow by assumption. rewrite calls_bind.
  destruct (result m); rewrite ?Hc; apply app_nil_r.
Qed.

Lemma verifySignature_valid_input (gf : option FetchFn)
    (payload : list (JsString * JsValue)) (config : PipelinkConfig.t)
    (baseUrl : JsString) :
  valid_payload payload ->
  PipelinkConfig.baseUrl config = Some baseUrl -> baseUrl <> [] ->
  verifySignature gf payload config =
  (response <- verify_request gf payload config baseUrl ;;
   if not_a T_object response
   then throw (ValidationError (lit "Invalid response from auth verify endpoint"))
   else ret response).
Proof.
  intros (Hw & Hm & x & items & Hs) Hb Hne. unfold verifySignature.
  rewrite Hw, Hm, Hs, Hb. cbn [negb Array_isArray length_is_0 orb].
  destruct baseUrl as [|b0 baseUrl]; [congruence|].
  apply catch_rethrow. intros e. now destruct (instanceof_ValidationError e).
Qed.

Lemma createPipeline_valid_input (gf : option FetchFn)
    (pipelineConfig : JsValue) (config : PipelinkConfig.t) (baseUrl : JsString) :
  valid_pipelineConfig pipelineConfig ->
  PipelinkConfig.baseUrl config = Some baseUrl -> baseUrl <> [] ->
  createPipeline gf pipelineConfig config =
  (response <- create_request gf pipelineConfig config baseUrl ;;
   if not_a T_object response
   then throw (ValidationError
                 (lit "Invalid response from pipeline create endpoint"))
   else if not_a T_string (prop response "pipelineId")
   then throw (ValidationError (lit "Pipeline ID is required in response"))
   else if not_a T_string (prop response "status")
   then throw (ValidationError (lit "Pipeline status is required in response"))
   else ret response).
Proof.
  intros (props & c & s & -> & Hn) Hb Hne. unfold createPipeline.
  cbn [not_a truthy typeof type_eqb negb orb prop]. rewrite Hn, Hb.
  cbn [truthy typeof type_eqb negb orb length_is_0].
  destruct baseUrl as [|b0 baseUrl]; [congruence|].
  apply catch_rethrow. intros e. now destruct (instanceof_ValidationError e).
Qed.

(** X9: no operation makes a second attempt: [httpRequest],
    [verifySignature], [getWalletBalance] and [createPipeline] invoke
    the transport function at most once, whatever their arguments are
    and however the transport behaves. *)
Theorem single_attempt (gf : option FetchFn) (config : PipelinkConfig.t) :
  (forall url options,
      (List.length (calls (httpRequest gf url options)) <= 1)%nat) /\
  (forall payload,
      (List.length (calls (verifySignature gf payload config)) <= 1)%nat) /\
  (forall address,
      (List.length (calls (getWalletBalance gf address config)) <= 1)%nat) /\
  (forall pipelineConfig,
      (List.length (calls (createPipeline gf pipelineConfig config)) <= 1)%nat).
Proof.
  assert (forall url options,
             (List.length (calls (httpRequest gf url options)) <= 1)%nat) as Hhttp.
  { intros url options. rewrite httpRequest_calls.
    destruct (match HttpRequestOptions.fetch options with
              | Some f => Some f
              | None => gf
              end); cbn; lia. }
  repeat split; [exact Hhttp | intros payload | intros address
                 | intros pipelineConfig].
  - unfold verifySignature.
    repeat match goal with
           | |- context [if ?c then throw _ else _] => destruct c; [cbn; lia|]
           end.
    destruct (PipelinkConfig.baseUrl config) as [[|b0 baseUrl]|]; try (cbn; lia).
    rewrite checked_calls; [apply Hhttp | intros v; silent
                            | intros e; now destruct (instanceof_ValidationError e)].
  - unfold getWalletBalance.
    repeat match goal with
           | |- context [if ?c then throw _ else _] => destruct c; [cbn; lia|]
           end.
    destruct (PipelinkConfig.baseUrl config) as [[|b0 baseUrl]|]; try (cbn; lia).
    destruct (encodeURIComponent (ToString address)); [|cbn; lia].
    rewrite checked_calls; [apply Hhttp | intros v; silent
                            | intros e; now destruct (instanceof_ValidationError e)].
  - unfold createPipeline.
    repeat match goal with
           | |- context [if ?c then throw _ else _] => destruct c; [cbn; lia|]
           end.
    destruct (PipelinkConfig.baseUrl config) as [[|b0 baseUrl]|]; try (cbn; lia).
    rewrite checked_calls; [apply Hhttp | intros v; silent
                            | intros e; now destruct (instanceof_ValidationError e)].
Qed.

(** X10: with a valid payload, an endpoint and a transport function,
    [verifySignature] invokes the transport exactly once: a POST to the
    endpoint followed by [/api/auth/verify], with the default headers
    and the JSON text of the payload, all its fields included, as body. *)
Theorem verifySignature_request (gf : option FetchFn)
    (payload : list (JsString * JsValue)) (config : PipelinkConfig.t)
    (baseUrl : JsString) (f : FetchFn) :
  valid_payload payload ->
  PipelinkConfig.baseUrl config = Some baseUrl -> baseUrl <> [] ->
  transport_of gf config = Some f ->
  calls (verifySignature gf payload config)
  = [(baseUrl ++ lit "/api/auth/verify", POST_init (JObject payload))].
Proof.
  intros Hp Hb Hne Hf.
  rewrite (verifySignature_valid_input gf payload config baseUrl) by assumption.
  rewrite calls_bind. unfold verify_request.
  rewrite (proj2 (request_calls gf config f _ (JObject payload) Hf) eq_refl).
  destruct (result _); [|reflexivity ..].
  destruct (not_a T_object a); reflexivity.
Qed.

Lemma verifySignature_request_witness :
  calls (verifySignature None Fixtures.payload (Samples.config_ok Samples.verified))
  = [(Samples.base ++ lit "/api/auth/verify", POST_init (JObject Fixtures.payload))].
Proof.
  refine (verifySignature_request None Fixtures.payload
            (Samples.config_ok Samples.verified) Samples.base
            (Samples.ok_json Samples.verified) _ eq_refl _ eq_refl).
  - repeat split; try reflexivity. eexists _, _. reflexivity.
  - discriminate.
Defined.

(** X11: with a pipeline configuration that is an object of JSON
    values with a non-empty [name] (a field that [JSON.stringify]
    cannot write, a BigInt or a cycle, is left out), an endpoint and a
    transport function, [createPipeline] invokes the transport exactly
    once: a POST to the endpoint followed by [/api/pipeline/create]
    that has a body, the JSON text of the whole configuration object,
    with the fields beyond [name]. *)
Theorem createPipeline_request (gf : option FetchFn) (pipelineConfig : JsValue)
    (config : PipelinkConfig.t) (baseUrl : JsString) (f : FetchFn) :
  valid_pipelineConfig pipelineConfig ->
  PipelinkConfig.baseUrl config = Some baseUrl -> baseUrl <> [] ->
  transport_of gf config = Some f ->
  exists text,
    JSON_stringify pipelineConfig = Some text /\
    calls (createPipeline gf pipelineConfig config)
    = [(baseUrl ++ lit "/api/pipeline/create",
        {| RequestInit.method := lit "POST";
           RequestInit.headers := [(lit "Content-Type", lit "application/json")];
           RequestInit.body := Some text |})].
Proof.
  intros Hp Hb Hne Hf.
  assert (truthy pipelineConfig = true) as Ht
    by (destruct Hp as (props & c & s & -> & _); reflexivity).
  destruct (JSON_stringify pipelineConfig) as [text|] eqn:Et;
    [|now apply truthy_has_json in Ht].
  exists text. split; [reflexivity|].
  rewrite (createPipeline_valid_input gf pipelineConfig config baseUrl)
    by assumption.
  rewrite calls_bind. unfold create_request.
  rewrite (proj2 (request_calls gf config f _ pipelineConfig Hf) Ht).
  unfold POST_init. rewrite Et.
  destruct (result _); [|reflexivity ..]. silent.
Qed.

Lemma createPipeline_request_witness :
  exists text,
    JSON_stringify Samples.pipelineConfig = Some text /\
    calls (createPipeline None Samples.pipelineConfig
             (Samples.config_ok Samples.pipeline_response))
    = [(Samples.base ++ lit "/api/pipeline/create",
        {| RequestInit.method := lit "POST";
           RequestInit.headers := [(lit "Content-Type", lit "application/json")];
           RequestInit.body := Some text |})].
Proof.
  refine (createPipeline_request None Samples.pipelineConfig
            (Samples.config_ok Samples.pipeline_response) Samples.base
            (Samples.ok_json Samples.pipeline_response) _ eq_refl _ eq_refl).
  - eexists _, _, _. split; reflexivity.
  - discriminate.
Defined.

(** *** The address in the URL *)

Lemma uri_encode_None (cs : list (option Z)) :
  uri_encode cs = None <->
  forallb (fun c => match c with Some _ => true | None => false end) cs = false.
Proof.
  induction cs as [|[c|] cs IH]; cbn [uri_encode forallb andb].
  - split; discriminate.
  - destruct (uri_encode cs).
    + split; [discriminate|]. intros H. apply IH in H. discriminate.
    + split; [intros _; now apply IH | reflexivity].
  - split; reflexivity.
Qed.

Lemma hex_digit_safe (d : Z) : uri_safe (hex_digit true d) = true.
Proof.
  unfold hex_digit. generalize (Z.to_nat d). intros n.
  do 17 (destruct n as [|n]; [reflexivity|]). now destruct n.
Qed.

Lemma percent_bytes_safe (bs : list Z) :
  forallb uri_safe (flat_map percent_byte bs) = true.
Proof.
  induction bs as [|b bs IH]; [reflexivity|].
  cbn [flat_map percent_byte app forallb]. rewrite !hex_digit_safe, IH.
  reflexivity.
Qed.

Lemma uri_encode_safe (cs : list (option Z)) (r : JsString) :
  uri_encode cs = Some r -> forallb uri_safe r = true.
Proof.
  revert r. induction cs as [|[c|] cs IH]; intros r; cbn [uri_encode].
  - now intros [= <-].
  - destruct (uri_encode cs) as [r'|]; [|discriminate]. intros [= <-].
    rewrite forallb_app, (IH r' eq_refl), andb_true_r.
    destruct (uri_unreserved c) eqn:E.
    + cbn [forallb]. unfold uri_safe. now rewrite E.
    + apply percent_bytes_safe.
  - discriminate.
Qed.

Lemma unreserved_not_surrogate (u : Z) :
  uri_unreserved u = true ->
  is_high_surrogate u = false /\ is_low_surrogate u = false.
Proof.
  unfold uri_unreserved, is_high_surrogate, is_low_surrogate.
  cbn [lit list_ascii_of_string map existsb].
  rewrite !orb_true_iff, !andb_true_iff, !andb_false_iff, !Z.leb_le, !Z.leb_gt,
    !Z.eqb_eq.
  cbn. lia.
Qed.

Lemma code_points_unreserved (s : JsString) :
  forallb uri_unreserved s = true -> code_points s = map Some s.
Proof.
  induction s as [|u s IH]; [reflexivity|]. cbn [forallb].
  intros H. apply andb_true_iff in H as [Hu Hs].
  destruct (unreserved_not_surrogate u Hu) as [Hh Hl].
  cbn [code_points map]. rewrite Hh, Hl. now rewrite IH.
Qed.

Lemma uri_encode_unreserved (s : JsString) :
  forallb uri_unreserved s = true -> uri_encode (map Some s) = Some s.
Proof.
  induction s as [|u s IH]; [reflexivity|]. cbn [forallb].
  intros H. apply andb_true_iff in H as [Hu Hs].
  cbn [map uri_encode]. now rewrite IH, Hu.
Qed.

Lemma getWalletBalance_calls (gf : option FetchFn) (address : JsString)
    (config : PipelinkConfig.t) (baseUrl encoded : JsString) (f : FetchFn) :
  address <> [] ->
  PipelinkConfig.baseUrl config = Some baseUrl -> baseUrl <> [] ->
  encodeURIComponent address = Some encoded ->
  transport_of gf config = Some f ->
  calls (getWalletBalance gf (JString address) config)
  = [(baseUrl ++ lit "/api/wallet/balance?address=" ++ encoded, GET_init)].
Proof.
  intros Ha Hb Hne He Hf.
  rewrite (getWalletBalance_valid_input gf address config baseUrl encoded)
    by assumption.
  rewrite calls_bind. fold (deadline_of config).
  rewrite (proj1 (request_calls gf config f _ JNull Hf)).
  destruct (result _); [|reflexivity ..]. unfold balance_checks. silent.
Qed.

(** X12: for a non-empty, well-formed address, an endpoint and a
    transport function, [getWalletBalance] invokes the transport exactly
    once: a GET without body whose URL is the endpoint, the path
    [/api/wallet/balance?address=] and the encoded address; the encoded
    address is made of letters, digits, the marks [-_.!~*'()] and
    percent escapes only, so that no [&], [=], [#], [/] or space of the
    address reaches the query string. *)
Theorem getWalletBalance_request (gf : option FetchFn) (address : JsString)
    (config : PipelinkConfig.t) (baseUrl : JsString) (f : FetchFn) :
  address <> [] -> isWellFormed address = true ->
  PipelinkConfig.baseUrl config = Some baseUrl -> baseUrl <> [] ->
  transport_of gf config = Some f ->
  exists encoded,
    encodeURIComponent address = Some encoded /\
    forallb uri_safe encoded = true /\
    calls (getWalletBalance gf (JString address) config)
    = [(baseUrl ++ lit "/api/wallet/balance?address=" ++ encoded, GET_init)].
Proof.
  intros Ha Hw Hb Hne Hf.
  destruct (encodeURIComponent address) as [encoded|] eqn:He.
  - exists encoded. split; [reflexivity|]. split.
    + exact (uri_encode_safe _ _ He).
    + now apply (getWalletBalance_calls gf address config baseUrl encoded f).
  - apply uri_encode_None in He. unfold isWellFormed in Hw. congruence.
Qed.

Lemma getWalletBalance_request_witness :
  exists encoded,
    encodeURIComponent (lit "a b&c=d/e#f") = Some encoded /\
    forallb uri_safe encoded = true /\
    calls (getWalletBalance None (JString (lit "a b&c=d/e#f"))
             (Samples.config_ok JNull))
    = [(Samples.base ++ lit "/api/wallet/balance?address=" ++ encoded, GET_init)].
Proof.
  refine (getWalletBalance_request None (lit "a b&c=d/e#f")
            (Samples.config_ok JNull) Samples.base (Samples.ok_json JNull)
            _ eq_refl eq_refl _ eq_refl); discriminate.
Defined.

(** X13: an address with a surrogate code unit that stands alone makes
    [getWalletBalance] fail with the URIError of [encodeURIComponent],
    which is none of the four kinds of error, and the transport
    function is not invoked. *)
Theorem getWalletBalance_ill_formed_address (gf : option FetchFn)
    (address : JsString) (config : PipelinkConfig.t) (baseUrl : JsString) :
  address <> [] -> isWellFormed address = false ->
  PipelinkConfig.baseUrl config = Some baseUrl -> baseUrl <> [] ->
  getWalletBalance gf (JString address) config
  = ([], Rejected (OtherError (lit "URIError") (lit "URI malformed"))) /\
  kind (OtherError (lit "URIError") (lit "URI malformed")) = None.
Proof.
  intros Ha Hw Hb Hne. split; [|reflexivity]. unfold getWalletBalance.
  destruct address as [|a0 address]; [congruence|].
  destruct baseUrl as [|b0 baseUrl]; [congruence|].
  cbn [not_a truthy typeof type_eqb negb orb length_is_0 ToString].
  rewrite Hb. unfold encodeURIComponent.
  now rewrite (proj2 (uri_encode_None _) Hw).
Qed.

Lemma getWalletBalance_ill_formed_address_witness :
  getWalletBalance None (JString [0x41; 0xDC00])
    (Fixtures.config (Some Fixtures.mockNeverSettles))
  = ([], Rejected (OtherError (lit "URIError") (lit "URI malformed"))) /\
  kind (OtherError (lit "URIError") (lit "URI malformed")) = None.
Proof.
  refine (getWalletBalance_ill_formed_address None [0x41; 0xDC00]
            (Fixtures.config (Some Fixtures.mockNeverSettles)) Samples.base
            _ eq_refl eq_refl _); discriminate.
Defined.

Lemma encodeURIComponent_unreserved (s : JsString) :
  forallb uri_unreserved s = true -> encodeURIComponent s = Some s.
Proof.
  intros Hu. unfold encodeURIComponent.
  now rewrite code_points_unreserved, uri_encode_unreserved.
Qed.

(** X14: an address made of letters, digits and the marks [-_.!~*'()]
    only, as a base58 address is, stands in the URL of the request as it
    is. *)
Theorem getWalletBalance_plain_address (gf : option FetchFn)
    (address : JsString) (config : PipelinkConfig.t) (baseUrl : JsString)
    (f : FetchFn) :
  address <> [] -> forallb uri_unreserved address = true ->
  PipelinkConfig.baseUrl config = Some baseUrl -> baseUrl <> [] ->
  transport_of gf config = Some f ->
  calls (getWalletBalance gf (JString address) config)
  = [(baseUrl ++ lit "/api/wallet/balance?address=" ++ address, GET_init)].
Proof.
  intros Ha Hu Hb Hne Hf.
  apply (getWalletBalance_calls gf address config baseUrl address f);
    try assumption.
  now apply encodeURIComponent_unreserved.
Qed.

Lemma getWalletBalance_plain_address_witness :
  calls (getWalletBalance None Fixtures.wallet_address (Samples.config_ok JNull))
  = [(Samples.base ++ lit "/api/wallet/balance?address="
        ++ lit "So1111111111111111111111111111111111111112", GET_init)].
Proof.
  refine (getWalletBalance_plain_address None
            (lit "So1111111111111111111111111111111111111112")
            (Samples.config_ok JNull) Samples.base (Samples.ok_json JNull)
            _ eq_refl eq_refl _ eq_refl); discriminate.
Defined.

(** *** The checks of the response *)

(** X15: when its POST resolves, [verifySignature] resolves with the
    parsed response as it is whenever that response is an object or an
    array, without looking at [verified] (which may be missing or not a
    boolean); for any other response ([null], a string, a number, ...)
    it is rejected with the ValidationError ["Invalid response from auth
    verify endpoint"]. *)
Theorem verifySignature_response (gf : option FetchFn)
    (payload : list (JsString * JsValue)) (config : PipelinkConfig.t)
    (baseUrl : JsString) (response : JsValue) :
  valid_payload payload ->
  PipelinkConfig.baseUrl config = Some baseUrl -> baseUrl <> [] ->
  result (verify_request gf payload config baseUrl) = Resolved response ->
  result (verifySignature gf payload config) =
  match response with
  | JObject _ | JArray _ => Resolved response
  | _ => Rejected (ValidationError
                     (lit "Invalid response from auth verify endpoint"))
  end.
Proof.
  intros Hp Hb Hne Hr.
  rewrite (verifySignature_valid_input gf payload config baseUrl) by assumption.
  rewrite result_bind, Hr.
  destruct response as [ | | b | n | s | items | props ]; try reflexivity.
  - unfold not_a; cbn [typeof type_eqb negb]. now rewrite orb_true_r.
  - unfold not_a; cbn [typeof type_eqb negb]. now rewrite orb_true_r.
  - unfold not_a; cbn [typeof type_eqb negb]. now rewrite orb_true_r.
Qed.

Lemma verifySignature_response_witness :
  result (verifySignature None Fixtures.payload
            (Samples.config_ok (JObject [(lit "verified", JString (lit "yes"))])))
  = Resolved (JObject [(lit "verified", JString (lit "yes"))]).
Proof.
  refine (verifySignature_response None Fixtures.payload
            (Samples.config_ok (JObject [(lit "verified", JString (lit "yes"))]))
            Samples.base (JObject [(lit "verified", JString (lit "yes"))])
            _ eq_refl _ _).
  - repeat split; try reflexivity. eexists _, _. reflexivity.
  - discriminate.
  - vm_compute. reflexivity.
Defined.

(** X16: when its POST resolves, [createPipeline] resolves with the
    parsed response as it is, further fields included, if [pipelineId]
    and [status] are both non-empty strings, and is rejected with a
    ValidationError if either is missing, empty or not a string. *)
Theorem createPipeline_response (gf : option FetchFn) (pipelineConfig : JsValue)
    (config : PipelinkConfig.t) (baseUrl : JsString) (response : JsValue) :
  valid_pipelineConfig pipelineConfig ->
  PipelinkConfig.baseUrl config = Some baseUrl -> baseUrl <> [] ->
  result (create_request gf pipelineConfig config baseUrl) = Resolved response ->
  ((exists c s, prop response "pipelineId" = JString (c :: s)) ->
   (exists c s, prop response "status" = JString (c :: s)) ->
   result (createPipeline gf pipelineConfig config) = Resolved response) /\
  ((forall c s, prop response "pipelineId" <> JString (c :: s)) \/
   (forall c s, prop response "status" <> JString (c :: s)) ->
   exists msg,
     result (createPipeline gf pipelineConfig config)
     = Rejected (ValidationError msg)).
Proof.
  intros Hp Hb Hne Hr.
  rewrite (createPipeline_valid_input gf pipelineConfig config baseUrl)
    by assumption.
  rewrite result_bind, Hr. split.
  - intros (c & s & Hi) (c' & s' & Hs).
    destruct response; try discriminate. cbn [prop] in *.
    cbn [not_a truthy typeof type_eqb negb orb prop]. now rewrite Hi, Hs.
  - intros H.
    destruct (not_a T_object response) eqn:Eo; [eexists; reflexivity|].
    destruct (not_a T_string (prop response "pipelineId")) eqn:Ei;
      [eexists; reflexivity|].
    destruct (not_a T_string (prop response "status")) eqn:Es;
      [eexists; reflexivity|].
    apply not_a_string in Ei as (c & s & Hi).
    apply not_a_string in Es as (c' & s' & Hs).
    destruct H as [H | H]; [now destruct (H c s) | now destruct (H c' s')].
Qed.

Lemma createPipeline_response_witness :
  result (createPipeline None Samples.pipelineConfig
            (Samples.config_ok Samples.pipeline_response))
  = Resolved Samples.pipeline_response /\
  exists msg,
    result (createPipeline None Samples.pipelineConfig
              (Samples.config_ok
                 (JObject [(lit "pipelineId", JNumber (int 7));
                           (lit "status", JString (lit "active"))])))
    = Rejected (ValidationError msg).
Proof.
  split.
  - refine (proj1 (createPipeline_response None Samples.pipelineConfig
                     (Samples.config_ok Samples.pipeline_response) Samples.base
                     Samples.pipeline_response _ eq_refl _ _) _ _).
    + eexists _, _, _. split; reflexivity.
    + discriminate.
    + vm_compute. reflexivity.
    + eexists _, _. reflexivity.
    + eexists _, _. reflexivity.
  - refine (proj2 (createPipeline_response None Samples.pipelineConfig
                     (Samples.config_ok
                        (JObject [(lit "pipelineId", JNumber (int 7));
                                  (lit "status", JString (lit "active"))]))
                     Samples.base
                     (JObject [(lit "pipelineId", JNumber (int 7));
                               (lit "status", JString (lit "active"))])
                     _ eq_refl _ _) _).
    + eexists _, _, _. split; reflexivity.
    + discriminate.
    + vm_compute. reflexivity.
    + left. intros c s H. vm_compute in H. discriminate.
Defined.

(** X17: the operations pass on what their request fails with: when the
    request of [verifySignature], [getWalletBalance] or [createPipeline]
    is rejected, the operation is rejected with the very same error, an
    HTTPError with its status and data included, and it is never settled
    when the request is not. *)
Theorem operations_pass_on_failures (gf : option FetchFn)
    (config : PipelinkConfig.t) (baseUrl : JsString)
    (payload : list (JsString * JsValue)) (address encoded : JsString)
    (pipelineConfig : JsValue) :
  PipelinkConfig.baseUrl config = Some baseUrl -> baseUrl <> [] ->
  (valid_payload payload ->
   forall p, result (verify_request gf payload config baseUrl) = p ->
             (forall v, p <> Resolved v) ->
             result (verifySignature gf payload config) = p) /\
  (address <> [] -> encodeURIComponent address = Some encoded ->
   forall p, result (balance_request gf config baseUrl encoded) = p ->
             (forall v, p <> Resolved v) ->
             result (getWalletBalance gf (JString address) config) = p) /\
  (valid_pipelineConfig pipelineConfig ->
   forall p, result (create_request gf pipelineConfig config baseUrl) = p ->
             (forall v, p <> Resolved v) ->
             result (createPipeline gf pipelineConfig config) = p).
Proof.
  intros Hb Hne. repeat split.
  - intros Hp p Hr Hn.
    rewrite (verifySignature_valid_input gf payload config baseUrl) by assumption.
    rewrite result_bind, Hr. destruct p; [now destruct (Hn a) | reflexivity ..].
  - intros Ha He p Hr Hn.
    rewrite (getWalletBalance_valid_input gf address config baseUrl encoded)
      by assumption.
    rewrite result_bind. fold (deadline_of config).
    fold (balance_request gf config baseUrl encoded). rewrite Hr.
    destruct p; [now destruct (Hn a) | reflexivity ..].
  - intros Hp p Hr Hn.
    rewrite (createPipeline_valid_input gf pipelineConfig config baseUrl)
      by assumption.
    rewrite result_bind, Hr. destruct p; [now destruct (Hn a) | reflexivity ..].
Qed.

Lemma operations_pass_on_failures_witness :
  result (getWalletBalance None Fixtures.wallet_address
            (Fixtures.config
               (Some (Fixtures.mockResolvedValue
                        (Fixtures.Response_json 404 (lit "Not Found")
                           (JObject [(lit "error", JString (lit "Not found"))]))))))
  = Rejected (HTTPError (lit "HTTP 404: Not Found") (int 404) (lit "Not Found")
                (JObject [(lit "error", JString (lit "Not found"))])).
Proof.
  refine (proj1 (proj2 (operations_pass_on_failures None
                          (Fixtures.config
                             (Some (Fixtures.mockResolvedValue
                                      (Fixtures.Response_json 404 (lit "Not Found")
                                         (JObject [(lit "error",
                                                    JString (lit "Not found"))])))))
                          Samples.base []
                          (lit "So1111111111111111111111111111111111111112")
                          (lit "So1111111111111111111111111111111111111112")
                          JNull eq_refl _))
            _ _ _ _ _).
  - discriminate.
  - discriminate.
  - vm_compute. reflexivity.
  - vm_compute. reflexivity.
  - discriminate.
Defined.

(** ** client.ts: a client and its configuration *)

(** X18: the constructor of [PipelinkClient] fails exactly like the
    normalization of its argument: with the Error ["baseUrl is
    required"] when [baseUrl] is absent or empty, with the Error
    ["baseUrl must start with http:// or https://"] when it begins with
    neither, and in no other case, whatever [network], [timeout] and
    [fetch] are. *)
Theorem new_PipelinkClient_throws (gf : option FetchFn)
    (config : PipelinkConfig.t) (e : Exn) :
  new_PipelinkClient gf config = inl e <->
  ((PipelinkConfig.baseUrl config = None \/ PipelinkConfig.baseUrl config = Some [])
   /\ e = OtherError (lit "Error") (lit "baseUrl is required"))
  \/
  (exists baseUrl,
      PipelinkConfig.baseUrl config = Some baseUrl /\ baseUrl <> [] /\
      startsWith baseUrl (lit "http://") = false /\
      startsWith baseUrl (lit "https://") = false /\
      e = OtherError (lit "Error")
            (lit "baseUrl must start with http:// or https://")).
Proof.
  unfold new_PipelinkClient, normalizeConfig.
  destruct (PipelinkConfig.baseUrl config) as [[|c b]|].
  - split.
    + intros [= <-]. left. auto.
    + intros [[_ ->] | (b & [= <-] & Hne & _)]; [reflexivity | congruence].
  - destruct (startsWith (c :: b) (lit "http://")) eqn:E1;
      destruct (startsWith (c :: b) (lit "https://")) eqn:E2; cbn [negb andb].
    4:{ split.
        - intros [= <-]. right. exists (c :: b). repeat split; auto. discriminate.
        - intros [[[H | H] _] | (b' & _ & _ & _ & _ & ->)];
            [discriminate | discriminate | reflexivity]. }
    all: split; [discriminate|];
      intros [[[H | H] _] | (b' & [= <-] & _ & H1 & H2 & _)];
      try discriminate; congruence.
  - split.
    + intros [= <-]. left. auto.
    + intros [[_ ->] | (b & H & _)]; [reflexivity | discriminate].
Qed.

(** X19: a client that could be constructed holds the normalized
    configuration, whose endpoint is never empty, so that its
    operations never fail for a missing endpoint: with a transport
    function, every call with a valid argument made of JSON values (a
    payload that passes the checks, an address that is a non-empty
    well-formed string, a pipeline configuration that is an object of
    JSON values with a non-empty [name]) invokes the transport exactly
    once, at the normalized endpoint followed by the path of the
    operation.  A pipeline configuration with a field that
    [JSON.stringify] cannot write is left out. *)
Theorem client_operations (gf : option FetchFn) (config : PipelinkConfig.t)
    (client : PipelinkClient.t) (f : FetchFn) :
  new_PipelinkClient gf config = inr client ->
  transport_of gf config = Some f ->
  exists baseUrl,
    normalizeConfig config = inr (getConfig client) /\
    PipelinkConfig.baseUrl (getConfig client) = Some baseUrl /\
    baseUrl <> [] /\
    (forall payload,
        valid_payload payload ->
        calls (AuthService.verifySignature (PipelinkClient.auth client) payload)
        = [(baseUrl ++ lit "/api/auth/verify", POST_init (JObject payload))]) /\
    (forall address,
        address <> [] -> isWellFormed address = true ->
        exists encoded,
          encodeURIComponent address = Some encoded /\
          calls (WalletService.getBalance (PipelinkClient.wallet client)
                   (JString address))
          = [(baseUrl ++ lit "/api/wallet/balance?address=" ++ encoded,
              GET_init)]) /\
    (forall pipelineConfig,
        valid_pipelineConfig pipelineConfig ->
        exists text,
          JSON_stringify pipelineConfig = Some text /\
          calls (PipelineService.create (PipelinkClient.pipeline client)
                   pipelineConfig)
          = [(baseUrl ++ lit "/api/pipeline/create",
              {| RequestInit.method := lit "POST";
                 RequestInit.headers :=
                   [(lit "Content-Type", lit "application/json")];
                 RequestInit.body := Some text |})]).
Proof.
  unfold new_PipelinkClient. intros Hnew Hf.
  destruct (normalizeConfig config) as [thrown | normalized] eqn:En;
    [discriminate|].
  injection Hnew as <-.
  destruct (normalizeConfig_baseUrl_nonempty config normalized En)
    as (c & b & Hb).
  assert (transport_of gf normalized = Some f) as Hf'.
  { apply normalizeConfig_accepts in En as (b' & _ & _ & ->). exact Hf. }
  exists (c :: b).
  unfold getConfig.
  cbn [PipelinkClient.config PipelinkClient.auth PipelinkClient.wallet
       PipelinkClient.pipeline AuthService.verifySignature
       WalletService.getBalance PipelineService.create PipelinkConfig.baseUrl].
  repeat split.
  - now destruct normalized.
  - exact Hb.
  - discriminate.
  - intros payload Hp.
    rewrite (verifySignature_valid_input gf payload normalized (c :: b));
      [|assumption | assumption | discriminate].
    rewrite calls_bind. unfold verify_request.
    rewrite (proj2 (request_calls gf normalized f _ (JObject payload) Hf') eq_refl).
    destruct (result _); [|reflexivity ..]. silent.
  - intros address Ha Hw.
    destruct (encodeURIComponent address) as [encoded|] eqn:He.
    + exists encoded. split; [reflexivity|].
      apply (getWalletBalance_calls gf address normalized (c :: b) encoded f);
        try assumption. discriminate.
    + apply uri_encode_None in He. unfold isWellFormed in Hw. congruence.
  - intros pipelineConfig Hp.
    assert (truthy pipelineConfig = true) as Ht
      by (destruct Hp as (props & c' & s & -> & _); reflexivity).
    destruct (JSON_stringify pipelineConfig) as [text|] eqn:Et;
      [|now apply truthy_has_json in Ht].
    exists text. split; [reflexivity|].
    rewrite (createPipeline_valid_input gf pipelineConfig normalized (c :: b));
      [|assumption | assumption | discriminate].
    rewrite calls_bind. unfold create_request.
    rewrite (proj2 (request_calls gf normalized f _ pipelineConfig Hf') Ht).
    unfold POST_init. rewrite Et.
    destruct (result _); [|reflexivity ..]. silent.
Qed.

Lemma client_operations_witness :
  exists client,
    new_PipelinkClient None
      (Fixtures.partial "https://api.example.com/" None
         (Some (Samples.ok_json Samples.verified)))
    = inr client /\
    calls (AuthService.verifySignature (PipelinkClient.auth client)
             Fixtures.payload)
    = [(Samples.base ++ lit "/api/auth/verify",
        POST_init (JObject Fixtures.payload))].
Proof.
  eexists. split; [reflexivity|].
  destruct (client_operations None
              (Fixtures.partial "https://api.example.com/" None
                 (Some (Samples.ok_json Samples.verified)))
              _ (Samples.ok_json Samples.verified) eq_refl eq_refl)
    as (baseUrl & _ & Hb & _ & Hverify & _).
  vm_compute in Hb. injection Hb as <-.
  apply Hverify. repeat split; try reflexivity. eexists _, _. reflexivity.
Defined.

(** ** auth/signer.ts: when signing succeeds *)

(** X20: an empty message, the empty string or an empty byte sequence,
    is rejected with the ValidationError ["Message cannot be empty"]
    by every complete wallet adapter, whatever its signer would do; and
    these are the only messages without bytes: a string that is not
    empty is never taken for an empty message. *)
Theorem signMessage_empty_message (adapter : WalletAdapter.t)
    (sign : list Z -> Promise (option (list Z)))
    (publicKey : WalletAdapter.PublicKey) (message : Message) :
  WalletAdapter.signMessage adapter = Some sign ->
  WalletAdapter.publicKey adapter = Some publicKey ->
  (messageBytes message = [] <-> message = Text [] \/ message = Bytes []) /\
  (message = Text [] \/ message = Bytes [] ->
   signMessage (Some adapter) message
   = Rejected (ValidationError (lit "Message cannot be empty"))).
Proof.
  intros Hs Hp. split.
  - split.
    + destruct message as [[|u s] | [|b bs]]; cbn [messageBytes]; auto.
      * intros H. now apply TextEncoder_encode_nonempty in H.
      * discriminate.
    + intros [-> | ->]; reflexivity.
  - intros Hm. unfold signMessage. rewrite Hs, Hp.
    destruct Hm as [-> | ->]; reflexivity.
Qed.

Lemma signMessage_empty_message_witness :
  signMessage (Some (Fixtures.mockAdapter (Resolved (Some [1; 2; 3])) "wallet"))
    (Bytes [])
  = Rejected (ValidationError (lit "Message cannot be empty")).
Proof.
  refine (proj2 (signMessage_empty_message
                   (Fixtures.mockAdapter (Resolved (Some [1; 2; 3])) "wallet")
                   _ _ (Bytes []) eq_refl eq_refl) _).
  right. reflexivity.
Defined.

(** X21: [signMessage] resolves exactly when the adapter has a signer
    and a public key, the message has bytes (the UTF-8 bytes of a
    string, the bytes themselves otherwise), the signer answers these
    bytes with a non-empty signature, and the identity can be read; the
    result is then that identity, the text of the message and that
    signature. *)
Theorem signMessage_resolves (walletAdapter : option WalletAdapter.t)
    (message : Message) (r : SignResult.t) :
  signMessage walletAdapter message = Resolved r <->
  exists adapter sign publicKey,
    walletAdapter = Some adapter /\
    WalletAdapter.signMessage adapter = Some sign /\
    WalletAdapter.publicKey adapter = Some publicKey /\
    messageBytes message <> [] /\
    sign (messageBytes message) = Resolved (Some (SignResult.signature r)) /\
    SignResult.signature r <> [] /\
    WalletAdapter.toBase58 publicKey = inr (SignResult.address r) /\
    SignResult.message r = match message with
                           | Text s => s
                           | Bytes b => TextDecoder_decode b
                           end.
Proof.
  unfold signMessage. split.
  - destruct walletAdapter as [adapter|]; [|discriminate].
    destruct (WalletAdapter.signMessage adapter) as [sign|] eqn:Es; [|discriminate].
    destruct (WalletAdapter.publicKey adapter) as [publicKey|] eqn:Ep;
      [|discriminate].
    destruct (messageBytes message) as [|b0 bytes] eqn:Eb; [discriminate|].
    cbn [List.length]. rewrite Nat2Z.inj_succ.
    destruct (Z.succ _ =? 0); [discriminate|].
    destruct (sign (b0 :: bytes)) as [[[|b sig]|] | cause | ] eqn:E;
      cbn [await try_catch]; try discriminate.
    + destruct (WalletAdapter.toBase58 publicKey) as [thrown|address] eqn:Ea;
        cbn [try_catch].
      * destruct (instanceof_ValidationError thrown); discriminate.
      * intros [= <-]. exists adapter, sign, publicKey.
        cbn [SignResult.signature SignResult.address SignResult.message].
        repeat split; auto; discriminate.
    + destruct (instanceof_ValidationError cause); discriminate.
  - intros (adapter & sign & publicKey & -> & Hs & Hp & Hb & Hsig & Hne & Ha & Hm).
    rewrite Hs, Hp.
    destruct (messageBytes message) as [|b0 bytes] eqn:Eb; [congruence|].
    cbn [List.length]. rewrite Nat2Z.inj_succ.
    destruct (Z.succ _ =? 0) eqn:E0; [apply Z.eqb_eq in E0; lia|].
    rewrite Hsig. cbn [await].
    destruct (SignResult.signature r) as [|b sig] eqn:Er; [congruence|].
    rewrite Ha. cbn [try_catch]. destruct r. cbn in *. now subst.
Qed.

(** X22: a ValidationError that the signer is rejected with is passed
    on as it is, without the prefix of a signing failure; and when the
    signature is there but reading the identity fails, the operation is
    rejected with the ValidationError ["Failed to sign message: "]
    followed by the message of that failure. *)
Theorem signMessage_signer_and_identity (adapter : WalletAdapter.t)
    (sign : list Z -> Promise (option (list Z)))
    (publicKey : WalletAdapter.PublicKey) (message : Message) :
  WalletAdapter.signMessage adapter = Some sign ->
  WalletAdapter.publicKey adapter = Some publicKey ->
  messageBytes message <> [] ->
  (forall m, sign (messageBytes message) = Rejected (ValidationError m) ->
             signMessage (Some adapter) message = Rejected (ValidationError m)) /\
  (forall b sig thrown,
      sign (messageBytes message) = Resolved (Some (b :: sig)) ->
      WalletAdapter.toBase58 publicKey = inl thrown ->
      instanceof_ValidationError thrown = false ->
      signMessage (Some adapter) message
      = Rejected (ValidationError
                    (lit "Failed to sign message: " ++
                     match message_of thrown with
                     | Some m => m
                     | None => lit "Unknown error"
                     end))).
Proof.
  intros Hs Hp Hb. unfold signMessage. rewrite Hs, Hp.
  destruct (messageBytes message) as [|b0 bytes] eqn:Eb; [congruence|].
  cbn [List.length]. rewrite Nat2Z.inj_succ.
  destruct (Z.succ _ =? 0) eqn:E0; [apply Z.eqb_eq in E0; lia|].
  split.
  - intros m ->. reflexivity.
  - intros b sig thrown -> Ha Hv. cbn [await]. rewrite Ha. cbn [try_catch].
    now rewrite Hv.
Qed.

Lemma signMessage_signer_and_identity_witness :
  signMessage
    (Some (Fixtures.mockAdapter
             (Rejected (ValidationError (lit "User rejected the request")))
             "wallet"))
    (Text (lit "message"))
  = Rejected (ValidationError (lit "User rejected the request"))
  /\
  signMessage
    (Some {| WalletAdapter.signMessage := Some (fun _ => Resolved (Some [1; 2; 3]));
             WalletAdapter.publicKey :=
               Some {| WalletAdapter.toBase58 :=
                         inl (TypeError (lit "toBase58 is not a function")) |} |})
    (Text (lit "message"))
  = Rejected (ValidationError
                (lit "Failed to sign message: toBase58 is not a function")).
Proof.
  split.
  - refine (proj1 (signMessage_signer_and_identity
                     (Fixtures.mockAdapter
                        (Rejected (ValidationError (lit "User rejected the request")))
                        "wallet")
                     _ _ (Text (lit "message")) eq_refl eq_refl _) _ eq_refl).
    vm_compute. discriminate.
  - refine (proj2 (signMessage_signer_and_identity
                     {| WalletAdapter.signMessage :=
                          Some (fun _ => Resolved (Some [1; 2; 3]));
                        WalletAdapter.publicKey :=
                          Some {| WalletAdapter.toBase58 :=
                                    inl (TypeError (lit "toBase58 is not a function")) |} |}
                     _ _ (Text (lit "message")) eq_refl eq_refl _)
              1 [2; 3] (TypeError (lit "toBase58 is not a function"))
              eq_refl eq_refl eq_refl).
    vm_compute. discriminate.
Defined.

(** ** config.ts: what normalization keeps *)

Lemma replace_trailing_slash_none (b : JsString) :
  (forall s, b <> s ++ [47]) -> replace_trailing_slash b = b.
Proof.
  intros H. destruct b as [|c0 b]; [reflexivity|].
  destruct (@exists_last _ (c0 :: b)) as (s & c & E); [discriminate|].
  rewrite E. apply replace_trailing_slash_other. intros ->. now apply (H s).
Qed.

Lemma number_or_truthy (a : option number) (b : number) :
  truthy (JNumber b) = true -> truthy (JNumber (number_or a b)) = true.
Proof.
  intros Hb. unfold number_or. destruct a as [n|]; [|exact Hb].
  destruct (truthy (JNumber n)) eqn:E; assumption.
Qed.

Lemma number_or_idem (a : option number) (b : number) :
  truthy (JNumber b) = true ->
  number_or (Some (number_or a b)) b = number_or a b.
Proof.
  intros Hb. unfold number_or at 1. now rewrite number_or_truthy.
Qed.

(** X23: on an accepted configuration, normalization removes the last
    code unit of the endpoint when it is a slash, and only that one (an
    endpoint ending in two slashes keeps one), leaves any other endpoint
    as it is, and, unless the endpoint is the bare scheme ["http://"] or
    ["https://"], the normalized endpoint still begins with the scheme. *)
Theorem normalizeConfig_trailing_slash (config normalized : PipelinkConfig.t)
    (baseUrl : JsString) :
  normalizeConfig config = inr normalized ->
  PipelinkConfig.baseUrl config = Some baseUrl ->
  (forall s, baseUrl = s ++ [47] -> PipelinkConfig.baseUrl normalized = Some s) /\
  ((forall s, baseUrl <> s ++ [47]) ->
   PipelinkConfig.baseUrl normalized = Some baseUrl) /\
  (baseUrl <> lit "http://" -> baseUrl <> lit "https://" ->
   exists b, PipelinkConfig.baseUrl normalized = Some b /\
             (startsWith b (lit "http://") = true \/
              startsWith b (lit "https://") = true)).
Proof.
  intros Hn Hb. repeat split.
  - intros s ->. apply normalizeConfig_accepts in Hn as (b & Hb' & _ & ->).
    rewrite Hb in Hb'. injection Hb' as <-. cbn [PipelinkConfig.baseUrl].
    now rewrite replace_trailing_slash_slash.
  - intros Hs. apply normalizeConfig_accepts in Hn as (b & Hb' & _ & ->).
    rewrite Hb in Hb'. injection Hb' as <-. cbn [PipelinkConfig.baseUrl].
    now rewrite replace_trailing_slash_none.
  - intros N1 N2. now apply (normalizeConfig_keeps_scheme config normalized baseUrl).
Qed.

Lemma normalizeConfig_trailing_slash_witness :
  exists normalized,
    normalizeConfig (Fixtures.partial "https://api.example.com//" None None)
    = inr normalized /\
    PipelinkConfig.baseUrl normalized = Some (lit "https://api.example.com/").
Proof.
  eexists. split; [reflexivity|].
  exact (proj1 (normalizeConfig_trailing_slash
                  (Fixtures.partial "https://api.example.com//" None None)
                  _ (lit "https://api.example.com//") eq_refl eq_refl)
           (lit "https://api.example.com/") eq_refl).
Defined.

(** X24: normalization is idempotent on the configurations it is meant
    for: when the endpoint is more than a bare scheme and does not end
    in two slashes, normalizing the normalized configuration accepts it
    and changes nothing. *)
Theorem normalizeConfig_idempotent (config normalized : PipelinkConfig.t)
    (baseUrl : JsString) :
  normalizeConfig config = inr normalized ->
  PipelinkConfig.baseUrl config = Some baseUrl ->
  baseUrl <> lit "http://" -> baseUrl <> lit "https://" ->
  (forall s, baseUrl <> s ++ [47; 47]) ->
  normalizeConfig normalized = inr normalized.
Proof.
  intros Hn Hb N1 N2 Hss.
  destruct (normalizeConfig_keeps_scheme config normalized baseUrl Hn Hb N1 N2)
    as (b & Hb1 & Hscheme).
  apply normalizeConfig_accepts in Hn as (b' & Hb' & _ & ->).
  rewrite Hb in Hb'. injection Hb' as <-.
  cbn [PipelinkConfig.baseUrl] in Hb1. injection Hb1 as <-.
  apply normalizeConfig_accepts. exists (replace_trailing_slash baseUrl).
  cbn [PipelinkConfig.baseUrl PipelinkConfig.network PipelinkConfig.timeout
       PipelinkConfig.fetch].
  repeat split; [exact Hscheme|]. f_equal.
  - f_equal. symmetry. apply replace_trailing_slash_none. intros s Hs.
    destruct (@exists_last _ baseUrl) as (s' & c & E).
    { intros ->. destruct Hscheme; discriminate. }
    subst baseUrl. destruct (Z.eq_dec c 47) as [-> | Hc].
    + rewrite replace_trailing_slash_slash in Hs. subst s'.
      apply (Hss s). now rewrite <- app_assoc.
    + rewrite replace_trailing_slash_other in Hs by assumption.
      apply app_inj_tail in Hs as [_ Hs]. contradiction.
  - destruct (PipelinkConfig.network config) as [[|c n]|]; reflexivity.
  - now rewrite number_or_idem.
Qed.

Lemma normalizeConfig_idempotent_witness :
  normalizeConfig
    (Fixtures.partial "https://api.example.com" (Some (int 30000)) None)
  = inr (Fixtures.partial "https://api.example.com" (Some (int 30000)) None).
Proof.
  refine (normalizeConfig_idempotent
            (Fixtures.partial "https://api.example.com/" None None)
            (Fixtures.partial "https://api.example.com" (Some (int 30000)) None)
            (lit "https://api.example.com/") eq_refl eq_refl _ _ _).
  - discriminate.
  - discriminate.
  - intros s H. apply (f_equal (@rev Z)) in H. rewrite rev_app_distr in H.
    vm_compute in H. discriminate.
Defined.

(** X25: normalization settles the fields the operations read: the
    normalized [timeout] is there and is neither 0 nor NaN, and it is the
    deadline the operations would have used with the configuration as
    given; the normalized [network] is a non-empty string; and [fetch]
    is the one given. *)
Theorem normalizeConfig_fields (config normalized : PipelinkConfig.t) :
  normalizeConfig config = inr normalized ->
  PipelinkConfig.timeout normalized = Some (deadline_of config) /\
  truthy (JNumber (deadline_of config)) = true /\
  deadline_of normalized = deadline_of config /\
  (exists c n, PipelinkConfig.network normalized = Some (c :: n)) /\
  PipelinkConfig.fetch normalized = PipelinkConfig.fetch config.
Proof.
  intros Hn. apply normalizeConfig_accepts in Hn as (b & _ & _ & ->).
  cbn [PipelinkConfig.timeout PipelinkConfig.network PipelinkConfig.fetch].
  assert (truthy (JNumber (deadline_of config)) = true) as Ht
    by now apply number_or_truthy.
  repeat split.
  - exact Ht.
  - unfold deadline_of. cbn [PipelinkConfig.timeout]. unfold DEFAULT_TIMEOUT.
    now rewrite number_or_idem.
  - destruct (PipelinkConfig.network config) as [[|c n]|]; eexists _, _; reflexivity.
Qed.

Lemma normalizeConfig_fields_witness :
  exists normalized,
    normalizeConfig (Fixtures.partial "https://api.example.com/" (Some NaN) None)
    = inr normalized /\
    PipelinkConfig.timeout normalized = Some (int 30000).
Proof.
  eexists. split; [reflexivity|].
  exact (proj1 (normalizeConfig_fields
                  (Fixtures.partial "https://api.example.com/" (Some NaN) None)
                  _ eq_refl)).
Defined.

(** ** utils/http.ts: the wrappers *)



(** ** The messages of input validation *)

(** X27: [verifySignature] checks its payload in the order wallet,
    message, signature, and a payload that fails a check is rejected
    with the ValidationError of the first check it fails, before the
    configuration is looked at and without any invocation of the
    transport. *)
Theorem verifySignature_invalid_payload (gf : option FetchFn)
    (payload : list (JsString * JsValue)) (config : PipelinkConfig.t) :
  (truthy (lookup (lit "wallet") payload) = false ->
   verifySignature gf payload config
   = ([], Rejected (ValidationError (lit "Wallet address is required")))) /\
  (truthy (lookup (lit "wallet") payload) = true ->
   truthy (lookup (lit "message") payload) = false ->
   verifySignature gf payload config
   = ([], Rejected (ValidationError (lit "Message is required")))) /\
  (truthy (lookup (lit "wallet") payload) = true ->
   truthy (lookup (lit "message") payload) = true ->
   (forall x items, lookup (lit "signature") payload <> JArray (x :: items)) ->
   verifySignature gf payload config
   = ([], Rejected (ValidationError (lit "Valid signature array is required")))).
Proof.
  unfold verifySignature. repeat split.
  - intros ->. reflexivity.
  - intros -> ->. reflexivity.
  - intros -> -> Hs. cbn [negb].
    destruct (lookup (lit "signature") payload) as [ | | | | | [|x items] | ];
      try reflexivity.
    now destruct (Hs x items).
Qed.

Lemma verifySignature_invalid_payload_witness :
  verifySignature None
    [(lit "wallet", JString (lit "wallet123"));
     (lit "message", JString (lit "Hello"));
     (lit "signature", JArray [])]
    (Fixtures.config_without_baseUrl None)
  = ([], Rejected (ValidationError (lit "Valid signature array is required"))).
Proof.
  refine (proj2 (proj2 (verifySignature_invalid_payload None
                          [(lit "wallet", JString (lit "wallet123"));
                           (lit "message", JString (lit "Hello"));
                           (lit "signature", JArray [])]
                          (Fixtures.config_without_baseUrl None)))
            eq_refl eq_refl _).
  intros x items H. vm_compute in H. discriminate.
Defined.

(** X28: an address that is not a non-empty string (the empty string,
    [null], [undefined], a number, ...) is rejected with the
    ValidationError ["Valid wallet address is required"] and without
    any invocation of the transport; the empty string too gets this
    message, the check for an empty address that follows is never
    reached. *)
Theorem getWalletBalance_invalid_address (gf : option FetchFn)
    (address : JsValue) (config : PipelinkConfig.t) :
  (forall c s, address <> JString (c :: s)) ->
  getWalletBalance gf address config
  = ([], Rejected (ValidationError (lit "Valid wallet address is required"))).
Proof.
  intros Ha. unfold getWalletBalance.
  destruct address as [ | | b | n | [|c s] | items | props ]; try reflexivity.
  - unfold not_a; cbn [typeof type_eqb negb]. now rewrite orb_true_r.
  - unfold not_a; cbn [typeof type_eqb negb]. now rewrite orb_true_r.
  - now destruct (Ha c s).
Qed.

Lemma getWalletBalance_invalid_address_witness :
  getWalletBalance None (JString []) (Fixtures.config None)
  = ([], Rejected (ValidationError (lit "Valid wallet address is required"))).
Proof.
  apply (getWalletBalance_invalid_address None (JString [])).
  intros c s H. discriminate.
Defined.

(** X29: [createPipeline] rejects [null], [undefined] and every value
    that is not an object with the ValidationError ["Pipeline
    configuration is required"], and an object whose [name] is not a
    non-empty string with the ValidationError ["Pipeline name is
    required"]; the empty name too gets this message, the check for an
    empty name that follows is never reached. *)
Theorem createPipeline_invalid_input (gf : option FetchFn)
    (pipelineConfig : JsValue) (config : PipelinkConfig.t) :
  (not_a T_object pipelineConfig = true ->
   createPipeline gf pipelineConfig config
   = ([], Rejected (ValidationError (lit "Pipeline configuration is required")))) /\
  (not_a T_object pipelineConfig = false ->
   (forall c s, prop pipelineConfig "name" <> JString (c :: s)) ->
   createPipeline gf pipelineConfig config
   = ([], Rejected (ValidationError (lit "Pipeline name is required")))).
Proof.
  unfold createPipeline. split.
  - intros ->. reflexivity.
  - intros -> Hn.
    destruct (not_a T_string (prop pipelineConfig "name")) eqn:E; [reflexivity|].
    apply not_a_string in E as (c & s & E). now destruct (Hn c s).
Qed.

Lemma createPipeline_invalid_input_witness :
  createPipeline None (JObject [(lit "name", JString [])]) (Fixtures.config None)
  = ([], Rejected (ValidationError (lit "Pipeline name is required"))).
Proof.
  refine (proj2 (createPipeline_invalid_input None
                   (JObject [(lit "name", JString [])]) (Fixtures.config None))
            eq_refl _).
  intros c s H. vm_compute in H. discriminate.
Defined.
